(** * bin/migrate.py: the clip archive header codec, the section rewrite
      and the bucket-to-bucket migration, as a shallow embedding.

    Python values are modelled as follows.
    - [bytes] objects are lists of [Byte.byte];
    - [int] is [Z] (unbounded), the eight-byte fields of the header are
      range-checked where [struct.pack] checks them;
    - [str] is a list of Unicode code points, so that
      [bytes(s, "utf-8")] and [b.decode("utf-8")] are real conversions;
    - an exception is a value of [exn]; a computation that may raise
      returns a [result];
    - the two S3 clients act on one world of objects, addressed by
      endpoint, bucket and key, and every request is logged. *)

From Stdlib Require Import ZArith NArith List Lia Bool.
From Stdlib Require Import Strings.Byte.
From stdpp Require Import base option list strings gmap.

Local Open Scope Z_scope.

(** ** Python objects *)

Abbreviation bytes := (list byte).
Abbreviation str := (list N).

Definition CLIP_ARCHIVE_HEADER_SIZE : Z := 54.

(** Exceptions that the script can meet.  [ValueError_unknown_type] is
    the [ValueError] raised by [migrate] itself and carries the raw tag
    of its message; [ClientError] is botocore's, with the S3 error code;
    [LibraryError] stands for whatever [pygob] raises. *)
Inductive exn : Type :=
  | StructError
  | UnboundLocalError (name : str)
  | ValueError_unknown_type (tag : bytes)
  | UnicodeDecodeError
  | UnicodeEncodeError
  | ClientError (code : str)
  | LibraryError (code : N).

(** [isinstance(e, ValueError)]: in Python the two Unicode errors derive
    from [UnicodeError], which derives from [ValueError]. *)
Definition is_ValueError (e : exn) : bool :=
  match e with
  | ValueError_unknown_type _ | UnicodeDecodeError | UnicodeEncodeError => true
  | _ => false
  end.

Inductive result (A : Type) : Type :=
  | Ok (a : A)
  | Raise (e : exn).
Arguments Ok {A} a.
Arguments Raise {A} e.

Definition result_bind {A B} (r : result A) (k : A -> result B) : result B :=
  match r with
  | Ok a => k a
  | Raise e => Raise e
  end.

(** *** Bytes as numbers *)

Definition byte_to_Z (b : byte) : Z := Z.of_N (Byte.to_N b).

Definition byte_of_Z (z : Z) : byte :=
  match Byte.of_N (Z.to_N (z mod 256)) with
  | Some b => b
  | None => x00
  end.

(** ASCII literals: the code points of a Rocq string. *)
Fixpoint str_lit (s : string) : str :=
  match s with
  | EmptyString => []
  | String c r => Ascii.N_of_ascii c :: str_lit r
  end.

Fixpoint bytes_lit (s : string) : bytes :=
  match s with
  | EmptyString => []
  | String c r => Ascii.byte_of_ascii c :: bytes_lit r
  end.

Arguments str_lit _%_string.
Arguments bytes_lit _%_string.

(** *** Slices

    [l[lo:hi]] and [l[lo:]] for arbitrary integers: a negative index
    counts from the end, and both ends are clamped to the sequence. *)
Definition slice_index (len i : Z) : Z :=
  if i <? 0 then Z.max 0 (i + len) else Z.min i len.

Definition py_slice {A} (l : list A) (lo hi : Z) : list A :=
  let len := Z.of_nat (length l) in
  let a := slice_index len lo in
  let b := slice_index len hi in
  take (Z.to_nat (b - a)) (drop (Z.to_nat a) l).

Definition py_slice_from {A} (l : list A) (lo : Z) : list A :=
  drop (Z.to_nat (slice_index (Z.of_nat (length l)) lo)) l.

(** *** [bytes.strip] *)

Fixpoint bytes_lstrip (c : byte) (l : bytes) : bytes :=
  match l with
  | [] => []
  | b :: r => if Byte.eqb b c then bytes_lstrip c r else l
  end.

Definition bytes_rstrip (c : byte) (l : bytes) : bytes :=
  rev (bytes_lstrip c (rev l)).

Definition bytes_strip (c : byte) (l : bytes) : bytes :=
  bytes_rstrip c (bytes_lstrip c l).

(** *** UTF-8

    [str_encode_utf8 s] is [bytes(s, "utf-8")]: surrogates cannot be
    encoded.  [bytes_decode_utf8 b] is [b.decode("utf-8")] with the
    strict error handler: truncated sequences, stray continuation
    bytes, overlong forms, surrogates and code points above 0x10FFFF
    are rejected. *)
Local Open Scope N_scope.

Definition nbyte (n : N) : byte :=
  match Byte.of_N n with
  | Some b => b
  | None => x00
  end.

Definition encode_code_point (c : N) : option bytes :=
  if c <? 0x80 then Some [nbyte c]
  else if c <? 0x800 then
    Some [nbyte (0xC0 + c / 64); nbyte (0x80 + c mod 64)]
  else if c <? 0x10000 then
    if (0xD800 <=? c) && (c <? 0xE000) then None
    else Some [nbyte (0xE0 + c / 4096); nbyte (0x80 + (c / 64) mod 64);
               nbyte (0x80 + c mod 64)]
  else if c <? 0x110000 then
    Some [nbyte (0xF0 + c / 262144); nbyte (0x80 + (c / 4096) mod 64);
          nbyte (0x80 + (c / 64) mod 64); nbyte (0x80 + c mod 64)]
  else None.

Fixpoint str_encode_utf8 (s : str) : result bytes :=
  match s with
  | [] => Ok []
  | c :: r =>
      match encode_code_point c with
      | None => Raise UnicodeEncodeError
      | Some bs => result_bind (str_encode_utf8 r) (fun rs => Ok (bs ++ rs))
      end
  end.

Definition is_cont (n : N) : bool := (0x80 <=? n) && (n <? 0xC0).

Fixpoint utf8_code_points (l : bytes) : option str :=
  match l with
  | [] => Some []
  | b0 :: r0 =>
      let n0 := Byte.to_N b0 in
      if n0 <? 0x80 then cons n0 <$> utf8_code_points r0
      else
        match r0 with
        | [] => None
        | b1 :: r1 =>
            let n1 := Byte.to_N b1 in
            if negb (is_cont n1) then None
            else if n0 <? 0xC2 then None
            else if n0 <? 0xE0 then
              cons ((n0 - 0xC0) * 64 + (n1 - 0x80)) <$> utf8_code_points r1
            else
              match r1 with
              | [] => None
              | b2 :: r2 =>
                  let n2 := Byte.to_N b2 in
                  if negb (is_cont n2) then None
                  else if n0 <? 0xF0 then
                    let c := (n0 - 0xE0) * 4096 + (n1 - 0x80) * 64 + (n2 - 0x80) in
                    if (c <? 0x800) || ((0xD800 <=? c) && (c <? 0xE000)) then None
                    else cons c <$> utf8_code_points r2
                  else
                    match r2 with
                    | [] => None
                    | b3 :: r3 =>
                        let n3 := Byte.to_N b3 in
                        if negb (is_cont n3) then None
                        else if 0xF4 <? n0 then None
                        else
                          let c := (n0 - 0xF0) * 262144 + (n1 - 0x80) * 4096
                                   + (n2 - 0x80) * 64 + (n3 - 0x80) in
                          if (c <? 0x10000) || (0x10FFFF <? c) then None
                          else cons c <$> utf8_code_points r3
                    end
              end
        end
  end.

Definition bytes_decode_utf8 (l : bytes) : result str :=
  match utf8_code_points l with
  | Some s => Ok s
  | None => Raise UnicodeDecodeError
  end.

Definition str_eqb (a b : str) : bool := bool_decide (a = b).

Local Close Scope N_scope.

(** Sequencing of computations that may raise. *)
#[export] Instance result_ret : MRet result := fun _ a => Ok a.
#[export] Instance result_mbind : MBind result := fun _ _ k r => result_bind r k.

(** ** The [struct] format ["<9sBqqqq12s"] *)

Record ClipArchiveHeader : Type := mkHeader {
  start_bytes : bytes;
  clip_file_format_version : Z;
  index_length : Z;
  index_pos : Z;
  storage_info_length : Z;
  storage_info_pos : Z;
  storage_info_type : bytes
}.

Definition set_storage_info_length (header : ClipArchiveHeader) (n : Z)
  : ClipArchiveHeader :=
  {| start_bytes := start_bytes header;
     clip_file_format_version := clip_file_format_version header;
     index_length := index_length header;
     index_pos := index_pos header;
     storage_info_length := n;
     storage_info_pos := storage_info_pos header;
     storage_info_type := storage_info_type header |}.

Record S3StorageInfo : Type := mkS3StorageInfo {
  Bucket : bytes;
  Region : bytes;
  Key : bytes;
  Endpoint : bytes
}.

Record StorageInfoWrapper : Type := mkStorageInfoWrapper {
  Type_ : bytes;
  Data : bytes
}.

(** Little-endian bytes of an integer, least significant first.  With
    floor division a negative integer yields its two's complement. *)
Fixpoint le_bytes (n : nat) (z : Z) : bytes :=
  match n with
  | O => []
  | S n' => byte_of_Z z :: le_bytes n' (z / 256)
  end.

Fixpoint le_unsigned (l : bytes) : Z :=
  match l with
  | [] => 0
  | b :: r => byte_to_Z b + 256 * le_unsigned r
  end.

(** ['Ns']: the argument is cut or padded with NUL bytes to [n] bytes. *)
Definition pack_s (n : nat) (b : bytes) : bytes :=
  take n b ++ replicate (n - length b)%nat x00.

(** ['B']: an unsigned byte; other integers are a [struct.error]. *)
Definition pack_B (z : Z) : result bytes :=
  if (0 <=? z) && (z <=? 255) then Ok [byte_of_Z z] else Raise StructError.

(** ['q']: a signed 64-bit integer; other integers are a [struct.error]. *)
Definition pack_q (z : Z) : result bytes :=
  if (- 2 ^ 63 <=? z) && (z <? 2 ^ 63) then Ok (le_bytes 8 z)
  else Raise StructError.

Definition unpack_q (l : bytes) : Z :=
  let u := le_unsigned l in
  if u <? 2 ^ 63 then u else u - 2 ^ 64.

Definition struct_pack (a0 : bytes) (a1 a2 a3 a4 a5 : Z) (a6 : bytes)
  : result bytes :=
  v ← pack_B a1;
  il ← pack_q a2;
  ip ← pack_q a3;
  sl ← pack_q a4;
  sp ← pack_q a5;
  Ok (pack_s 9 a0 ++ v ++ il ++ ip ++ sl ++ sp ++ pack_s 12 a6).

(** [struct.unpack] wants exactly [calcsize] = 54 bytes. *)
Definition struct_unpack (data : bytes)
  : result (bytes * Z * Z * Z * Z * Z * bytes) :=
  if decide (length data = 54%nat) then
    Ok (take 9 data,
        le_unsigned (take 1 (drop 9 data)),
        unpack_q (take 8 (drop 10 data)),
        unpack_q (take 8 (drop 18 data)),
        unpack_q (take 8 (drop 26 data)),
        unpack_q (take 8 (drop 34 data)),
        take 12 (drop 42 data))
  else Raise StructError.

(** ** The object stores

    One world of objects for both clients: an object that a client
    can read lives at an endpoint, in a bucket, under a key.  Every
    request is logged, the latest first; a [put_object] that the store
    refused is logged as such and writes nothing.  Credentials, regions
    and transport failures are not modelled: a request fails only when
    the store itself refuses it. *)
Inductive s3_request : Type :=
  | GetObject (endpoint_url Bucket_ Key_ : str) (Range : option (Z * Z))
  | PutObject (endpoint_url Bucket_ Key_ : str) (Body : bytes)
  | PutObjectRefused (endpoint_url Bucket_ Key_ : str) (Body : bytes).

Record S3 : Type := mkS3 {
  objects : gmap (str * str * str) bytes;
  requests : list s3_request
}.

Definition is_put (r : s3_request) : bool :=
  match r with
  | PutObject _ _ _ _ | PutObjectRefused _ _ _ _ => true
  | GetObject _ _ _ _ => false
  end.

(** A computation on the stores that may raise: what it did before
    raising stays done. *)
Definition M (A : Type) : Type := S3 -> result A * S3.

#[export] Instance M_ret : MRet M := fun _ a s => (Ok a, s).
#[export] Instance M_bind : MBind M := fun _ _ k m s =>
  match m s with
  | (Ok a, s') => k a s'
  | (Raise e, s') => (Raise e, s')
  end.

Definition lift {A} (r : result A) : M A := fun s => (r, s).
Definition raise {A} (e : exn) : M A := fun s => (Raise e, s).

Record BucketConfiguration : Type := mkBucketConfiguration {
  bucket : str;
  region : str;
  endpoint : str;
  force_path_style : bool;
  access_key : option str;
  secret_key : option str
}.

(** What the script takes from its libraries and from the service.
    - [missing_code endpoint bucket key] is the error code of the
      [ClientError] that the store answers to a GET of an object it
      does not hold ([NoSuchKey] in a bucket that exists,
      [NoSuchBucket] when the bucket does not, ...);
    - [put_refusal endpoint bucket key body] is the error code of the
      [ClientError] with which the store refuses that PUT
      ([NoSuchBucket], [AccessDenied], ...), [None] when it accepts;
    - [ranged_body obj first last] is the body S3 answers to a GET with
      the header [Range: bytes=first-last] on an object [obj];
    - [pygob_load] is [pygob.load]; [attr_Data w] is [w.Data] and
      [attr_Key i] is [bytes(i.Key)] on loaded values;
    - the two [pygob_dump_] functions are [pygob.dump] at the two
      dataclasses of the script. *)
Class Libraries : Type := {
  missing_code : str -> str -> str -> str;
  put_refusal : str -> str -> str -> bytes -> option str;
  ranged_body : bytes -> Z -> Z -> result bytes;
  gob_value : Type;
  pygob_load : bytes -> result gob_value;
  attr_Data : gob_value -> result bytes;
  attr_Key : gob_value -> result bytes;
  pygob_dump_S3StorageInfo : S3StorageInfo -> result bytes;
  pygob_dump_StorageInfoWrapper : StorageInfoWrapper -> result bytes
}.

(** [client.get_object(Bucket=, Key=, Range=)["Body"]]. *)
Definition get_object `{Libraries} (client : BucketConfiguration)
    (Bucket_ Key_ : str) (Range : option (Z * Z)) : M bytes :=
  fun s =>
    let s' := {| objects := objects s;
                 requests := GetObject (endpoint client) Bucket_ Key_ Range
                             :: requests s |} in
    match objects s !! (endpoint client, Bucket_, Key_) with
    | None =>
        (Raise (ClientError (missing_code (endpoint client) Bucket_ Key_)), s')
    | Some obj =>
        match Range with
        | None => (Ok obj, s')
        | Some (first, last) => (ranged_body obj first last, s')
        end
    end.

(** [client.put_object(Bucket=, Key=, Body=)]: the object is written
    whole, or the store refuses the request and nothing is written. *)
Definition put_object `{Libraries} (client : BucketConfiguration)
    (Bucket_ Key_ : str) (Body : bytes) : M unit :=
  fun s =>
    match put_refusal (endpoint client) Bucket_ Key_ Body with
    | Some code =>
        (Raise (ClientError code),
         {| objects := objects s;
            requests := PutObjectRefused (endpoint client) Bucket_ Key_ Body
                        :: requests s |})
    | None =>
        (Ok tt,
         {| objects := <[(endpoint client, Bucket_, Key_) := Body]> (objects s);
            requests := PutObject (endpoint client) Bucket_ Key_ Body
                        :: requests s |})
    end.

(** [body.read(amt)]: at most [amt] bytes, everything when [amt] is
    negative; [body.read()] is the whole body. *)
Definition stream_read (amt : Z) (body : bytes) : bytes :=
  if amt <? 0 then body else take (Z.to_nat amt) body.

(** ** ImageMigrator *)

Record ImageMigrator : Type := mkImageMigrator {
  source_bucket : BucketConfiguration;
  target_bucket : BucketConfiguration
}.

Section Migrator.
Context `{Libraries}.
Variable self : ImageMigrator.

(** [try: x = e / except struct.error: print(...)]: the handler binds
    nothing, so that [x] is unbound ([None]) after a [struct.error];
    other exceptions pass. *)
Definition except_struct_error {A} (r : result A) : result (option A) :=
  match r with
  | Ok a => Ok (Some a)
  | Raise StructError => Ok None
  | Raise e => Raise e
  end.

(** After the [try], [get_header] reads [unpacked_data]: when it is
    unbound, that raises [UnboundLocalError]. *)
Definition get_header (image_key : str) : M ClipArchiveHeader :=
  response ← get_object (source_bucket self)
               (bucket (source_bucket self)) image_key None;
  let data := stream_read CLIP_ARCHIVE_HEADER_SIZE response in
  unpacked_data ← lift (except_struct_error (struct_unpack data));
  match unpacked_data with
  | None => raise (UnboundLocalError (str_lit "unpacked_data"))
  | Some (u0, u1, u2, u3, u4, u5, u6) =>
      mret {| start_bytes := u0;
              clip_file_format_version := u1;
              index_length := u2;
              index_pos := u3;
              storage_info_length := u4;
              storage_info_pos := u5;
              storage_info_type := u6 |}
  end.

Definition get_s3_storage_info (image_key : str) (pos length : Z)
  : M gob_value :=
  response ← get_object (source_bucket self)
               (bucket (source_bucket self)) image_key
               (Some (pos, pos + length - 1));
  let data := stream_read length response in
  wrapper ← lift (pygob_load data);
  s3_info_data ← lift (attr_Data wrapper);
  s3_info ← lift (pygob_load s3_info_data);
  mret s3_info.

Definition download_full_archive (image_key : str) : M bytes :=
  response ← get_object (source_bucket self)
               (bucket (source_bucket self)) image_key None;
  mret response.

Definition update_binary (full_data : bytes) (header : ClipArchiveHeader)
    (new_s3_info_data : bytes) : result bytes :=
  updated_header ← struct_pack (start_bytes header)
                      (clip_file_format_version header)
                      (index_length header)
                      (index_pos header)
                      (storage_info_length header)
                      (storage_info_pos header)
                      (storage_info_type header);
  Ok (updated_header
      ++ py_slice full_data CLIP_ARCHIVE_HEADER_SIZE (storage_info_pos header)
      ++ new_s3_info_data
      ++ py_slice_from full_data
           (storage_info_pos header + storage_info_length header)).

Definition upload_to_target_bucket (image_key : str) (data : bytes) : M unit :=
  put_object (target_bucket self) (bucket (target_bucket self)) image_key data.

(** The [print] calls of [migrate] write to standard output only and
    are left out, except that the argument of the third one,
    [pygob.load(new_wrapper_data)], is evaluated and may raise. *)
Definition migrate (image_key : str) : M unit :=
  header ← get_header image_key;
  tag ← lift (bytes_decode_utf8 (bytes_strip x00 (storage_info_type header)));
  if negb (str_eqb tag (str_lit "s3")) then
    raise (ValueError_unknown_type (storage_info_type header))
  else
    s3_info ← get_s3_storage_info image_key
                (storage_info_pos header) (storage_info_length header);
    new_Bucket ← lift (str_encode_utf8 (bucket (source_bucket self)));
    new_Region ← lift (str_encode_utf8 (region (source_bucket self)));
    new_Key ← lift (attr_Key s3_info);
    new_Endpoint ← lift (str_encode_utf8 (endpoint (source_bucket self)));
    let new_s3_info :=
      {| Bucket := new_Bucket; Region := new_Region;
         Key := new_Key; Endpoint := new_Endpoint |} in
    new_s3_info_data ← lift (pygob_dump_S3StorageInfo new_s3_info);
    let new_wrapper :=
      {| Type_ := bytes_lit "s3"; Data := new_s3_info_data |} in
    new_wrapper_data ← lift (pygob_dump_StorageInfoWrapper new_wrapper);
    _ ← lift (pygob_load new_wrapper_data);
    let new_storage_info_length := Z.of_nat (length new_wrapper_data) in
    let header := set_storage_info_length header new_storage_info_length in
    full_data ← download_full_archive image_key;
    updated_data ← lift (update_binary full_data header new_wrapper_data);
    upload_to_target_bucket image_key updated_data.

End Migrator.

(** ** Reference collaborators

    [pygob] and the object store are not part of the repository.  To
    run the migration on concrete archives, the development carries
    one instance of [Libraries], built from what the specification
    says of the two collaborators. *)

#[export] Instance byte_eq_dec : EqDecision byte.
Proof.
  refine (fun a b =>
    match decide (Byte.to_N a = Byte.to_N b) with
    | left e => left _
    | right n => right _
    end).
  - pose proof (Byte.of_to_N a) as Ha. pose proof (Byte.of_to_N b) as Hb.
    rewrite e in Ha. congruence.
  - intros ->. apply n. reflexivity.
Defined.

Module TaggedValue.

(** Modelled from the spec: the tagged-value codec of section 4.2
    (the [pygob] library that the script imports is missing from the
    sources).  A value is a struct that carries its own type tag and
    the names of its fields; fields are byte strings.  On the wire a
    value is a sequence of atoms, the tag first and then name and
    content of every field; an atom is written byte by byte, each byte
    after the marker 1, and closed by the marker 0. *)
Record value : Type := mkValue {
  type_tag : bytes;
  fields : list (bytes * bytes)
}.

Definition DecodeError : exn := LibraryError 1.
Definition AttributeError : exn := LibraryError 2.

Fixpoint enc_atom (a : bytes) : bytes :=
  match a with
  | [] => [x00]
  | b :: r => x01 :: b :: enc_atom r
  end.

Fixpoint enc_fields (fs : list (bytes * bytes)) : bytes :=
  match fs with
  | [] => []
  | (name, content) :: r => enc_atom name ++ enc_atom content ++ enc_fields r
  end.

Definition encode (v : value) : bytes :=
  enc_atom (type_tag v) ++ enc_fields (fields v).

(** All atoms of the input; [cur] holds the bytes of the open atom,
    the latest first. *)
Fixpoint dec_atoms (l : bytes) (cur : bytes) : option (list bytes) :=
  match l with
  | [] => match cur with [] => Some [] | _ :: _ => None end
  | m :: r =>
      if Byte.eqb m x00 then cons (rev cur) <$> dec_atoms r []
      else if Byte.eqb m x01 then
        match r with
        | [] => None
        | b :: r' => dec_atoms r' (b :: cur)
        end
      else None
  end.

(** The atoms of a list of fields, in the order of the wire. *)
Fixpoint atoms_of (fs : list (bytes * bytes)) : list bytes :=
  match fs with
  | [] => []
  | (n, c) :: r => n :: c :: atoms_of r
  end.

Fixpoint pair_up (atoms : list bytes) : option (list (bytes * bytes)) :=
  match atoms with
  | [] => Some []
  | [_] => None
  | name :: content :: r => cons (name, content) <$> pair_up r
  end.

Definition decode (l : bytes) : result value :=
  match dec_atoms l [] with
  | Some (tag :: atoms) =>
      match pair_up atoms with
      | Some fs => Ok {| type_tag := tag; fields := fs |}
      | None => Raise DecodeError
      end
  | _ => Raise DecodeError
  end.

Fixpoint assoc (name : bytes) (fs : list (bytes * bytes)) : option bytes :=
  match fs with
  | [] => None
  | (n, c) :: r => if bool_decide (n = name) then Some c else assoc name r
  end.

Definition getattr (name : bytes) (v : value) : result bytes :=
  match assoc name (fields v) with
  | Some c => Ok c
  | None => Raise AttributeError
  end.

Definition of_S3StorageInfo (d : S3StorageInfo) : value :=
  {| type_tag := bytes_lit "S3StorageInfo";
     fields := [(bytes_lit "Bucket", Bucket d); (bytes_lit "Region", Region d);
                (bytes_lit "Key", Key d); (bytes_lit "Endpoint", Endpoint d)] |}.

Definition of_StorageInfoWrapper (w : StorageInfoWrapper) : value :=
  {| type_tag := bytes_lit "StorageInfoWrapper";
     fields := [(bytes_lit "Type", Type_ w); (bytes_lit "Data", Data w)] |}.

(** Decoding to the shape of a storage descriptor. *)
Definition to_S3StorageInfo (v : value) : result S3StorageInfo :=
  if bool_decide (type_tag v = bytes_lit "S3StorageInfo") then
    b ← getattr (bytes_lit "Bucket") v;
    r ← getattr (bytes_lit "Region") v;
    k ← getattr (bytes_lit "Key") v;
    e ← getattr (bytes_lit "Endpoint") v;
    Ok {| Bucket := b; Region := r; Key := k; Endpoint := e |}
  else Raise DecodeError.

Definition encode_descriptor (d : S3StorageInfo) : bytes :=
  encode (of_S3StorageInfo d).

Definition decode_descriptor (l : bytes) : result S3StorageInfo :=
  v ← decode l; to_S3StorageInfo v.

End TaggedValue.

(** Modelled from the spec: the byte-range fetch of section 6 (the
    object store is an external service).  A range [first-last] with
    [0 <= first <= last] is inclusive and cut at the end of the object;
    it cannot be satisfied when [first] is not inside the object; any
    other range header is not a byte range and the whole object is
    answered. *)
Definition http_range_body (obj : bytes) (first last : Z) : result bytes :=
  if (0 <=? first) && (first <=? last) then
    if first <? Z.of_nat (length obj) then
      Ok (take (Z.to_nat (last - first + 1)) (drop (Z.to_nat first) obj))
    else Raise (ClientError (str_lit "InvalidRange"))
  else Ok obj.

(** A store with the buckets that [bucket_exists] names: a GET of an
    absent object answers [NoSuchKey] in a bucket that exists and
    [NoSuchBucket] otherwise; a PUT is refused, with [NoSuchBucket],
    exactly when the bucket does not exist. *)
Definition store_libraries (bucket_exists : str -> str -> bool) : Libraries :=
  {| missing_code := fun e b _ =>
       if bucket_exists e b then str_lit "NoSuchKey"
       else str_lit "NoSuchBucket";
     put_refusal := fun e b _ _ =>
       if bucket_exists e b then None else Some (str_lit "NoSuchBucket");
     ranged_body := http_range_body;
     gob_value := TaggedValue.value;
     pygob_load := TaggedValue.decode;
     attr_Data := TaggedValue.getattr (bytes_lit "Data");
     attr_Key := TaggedValue.getattr (bytes_lit "Key");
     pygob_dump_S3StorageInfo := fun d =>
       Ok (TaggedValue.encode (TaggedValue.of_S3StorageInfo d));
     pygob_dump_StorageInfoWrapper := fun w =>
       Ok (TaggedValue.encode (TaggedValue.of_StorageInfoWrapper w)) |}.

(** The reference store has every bucket. *)
#[export] Instance reference_libraries : Libraries :=
  store_libraries (fun _ _ => true).


(** ** Vocabulary of the statements *)

(** The header codec as the script uses it: [get_header] builds the
    header from the unpacked tuple, [update_binary] packs its fields. *)
Definition pack_header (h : ClipArchiveHeader) : result bytes :=
  struct_pack (start_bytes h) (clip_file_format_version h) (index_length h)
    (index_pos h) (storage_info_length h) (storage_info_pos h)
    (storage_info_type h).

Definition unpack_header (data : bytes) : result ClipArchiveHeader :=
  t ← struct_unpack data;
  let '(u0, u1, u2, u3, u4, u5, u6) := t in
  Ok (mkHeader u0 u1 u2 u3 u4 u5 u6).

(** A header whose fields have the widths of the format. *)
Record valid_header (h : ClipArchiveHeader) : Prop := {
  valid_start_bytes : length (start_bytes h) = 9%nat;
  valid_version : 0 <= clip_file_format_version h <= 255;
  valid_index_length : - 2 ^ 63 <= index_length h < 2 ^ 63;
  valid_index_pos : - 2 ^ 63 <= index_pos h < 2 ^ 63;
  valid_storage_info_length : - 2 ^ 63 <= storage_info_length h < 2 ^ 63;
  valid_storage_info_pos : - 2 ^ 63 <= storage_info_pos h < 2 ^ 63;
  valid_storage_info_type : length (storage_info_type h) = 12%nat
}.

(** The splice in the words of the specification (section 4.4): the
    re-encoded header, the bytes up to the old section, the new section,
    and everything after the END OF THE OLD section. *)
Definition spec_splice (full_data updated_header : bytes)
    (pos old_length : Z) (new_bytes : bytes) : bytes :=
  updated_header
  ++ py_slice full_data CLIP_ARCHIVE_HEADER_SIZE pos
  ++ new_bytes
  ++ py_slice_from full_data (pos + old_length).

(** The [put_object] requests of a log, accepted or refused. *)
Definition puts (l : list s3_request) : list s3_request := filter is_put l.


(** The values that a run of [migrate] computes on its way to the
    upload, and the steps that relate them. *)
Section Runs.
Context `{Libraries}.
Variable self : ImageMigrator.

Record migration : Type := mkMigration {
  m_full_data : bytes;
  m_header : ClipArchiveHeader;
  m_s3_info : gob_value;
  m_new_s3_info : S3StorageInfo;
  m_new_wrapper_data : bytes;
  m_updated_data : bytes
}.

Record migrated (m : migration) : Prop := {
  mig_header :
    unpack_header (stream_read CLIP_ARCHIVE_HEADER_SIZE (m_full_data m))
    = Ok (m_header m);
  mig_tag :
    bytes_strip x00 (storage_info_type (m_header m)) = bytes_lit "s3";
  mig_s3_info :
    exists body wrapper s3_info_data,
      ranged_body (m_full_data m) (storage_info_pos (m_header m))
        (storage_info_pos (m_header m) + storage_info_length (m_header m) - 1)
      = Ok body /\
      pygob_load (stream_read (storage_info_length (m_header m)) body)
      = Ok wrapper /\
      attr_Data wrapper = Ok s3_info_data /\
      pygob_load s3_info_data = Ok (m_s3_info m);
  mig_Bucket :
    str_encode_utf8 (bucket (source_bucket self))
    = Ok (Bucket (m_new_s3_info m));
  mig_Region :
    str_encode_utf8 (region (source_bucket self))
    = Ok (Region (m_new_s3_info m));
  mig_Key : attr_Key (m_s3_info m) = Ok (Key (m_new_s3_info m));
  mig_Endpoint :
    str_encode_utf8 (endpoint (source_bucket self))
    = Ok (Endpoint (m_new_s3_info m));
  mig_new_wrapper_data :
    exists new_s3_info_data,
      pygob_dump_S3StorageInfo (m_new_s3_info m) = Ok new_s3_info_data /\
      pygob_dump_StorageInfoWrapper
        {| Type_ := bytes_lit "s3"; Data := new_s3_info_data |}
      = Ok (m_new_wrapper_data m);
  mig_updated_data :
    update_binary (m_full_data m)
      (set_storage_info_length (m_header m)
         (Z.of_nat (length (m_new_wrapper_data m))))
      (m_new_wrapper_data m)
    = Ok (m_updated_data m)
}.

(** Where the archive is read from and where it is written to. *)
Definition source_object (image_key : str) : str * str * str :=
  (endpoint (source_bucket self), bucket (source_bucket self), image_key).

Definition target_object (image_key : str) : str * str * str :=
  (endpoint (target_bucket self), bucket (target_bucket self), image_key).

(** The requests of a complete run, the latest first. *)
Definition run_requests (image_key : str) (m : migration) : list s3_request :=
  [ PutObject (endpoint (target_bucket self)) (bucket (target_bucket self))
      image_key (m_updated_data m);
    GetObject (endpoint (source_bucket self)) (bucket (source_bucket self))
      image_key None;
    GetObject (endpoint (source_bucket self)) (bucket (source_bucket self))
      image_key
      (Some (storage_info_pos (m_header m),
             storage_info_pos (m_header m)
             + storage_info_length (m_header m) - 1));
    GetObject (endpoint (source_bucket self)) (bucket (source_bucket self))
      image_key None ].

End Runs.

(** A state with one more request in its log. *)
Definition logged (r : s3_request) (s : S3) : S3 :=
  {| objects := objects s; requests := r :: requests s |}.

(** The effect of a list of requests, the latest first, on a state:
    the writes are applied and the requests are logged. *)
Definition write (r : s3_request) (o : gmap (str * str * str) bytes)
  : gmap (str * str * str) bytes :=
  match r with
  | PutObject e b k body => <[(e, b, k) := body]> o
  | GetObject _ _ _ _ | PutObjectRefused _ _ _ _ => o
  end.

Definition replay (evs : list s3_request) (s : S3) : S3 :=
  {| objects := foldr write (objects s) evs;
     requests := evs ++ requests s |}.

(** A computation whose outcome and requests depend on the stores only
    through the object at [k]. *)
Definition reads_only {A} (k : str * str * str) (m : M A) : Prop :=
  forall s1 s2 : S3,
    objects s1 !! k = objects s2 !! k ->
    exists r evs, m s1 = (r, replay evs s1) /\ m s2 = (r, replay evs s2).

(** ** A concrete migration

    The scenario of the specification, on a small archive: the source
    store holds one archive whose descriptor names an older bucket. *)
Module Scenario.

Definition source : BucketConfiguration :=
  {| bucket := str_lit "old-bkt"; region := str_lit "auto";
     endpoint := str_lit "https://old"; force_path_style := false;
     access_key := None; secret_key := None |}.

Definition target : BucketConfiguration :=
  {| bucket := str_lit "new-bkt"; region := str_lit "us-east-1";
     endpoint := str_lit "https://new"; force_path_style := false;
     access_key := None; secret_key := None |}.

Definition migrator : ImageMigrator :=
  {| source_bucket := source; target_bucket := target |}.

Definition image_key : str := str_lit "a.rclip".

Definition descriptor (b : string) : S3StorageInfo :=
  {| Bucket := bytes_lit b; Region := bytes_lit "auto";
     Key := bytes_lit "obj.bin"; Endpoint := bytes_lit "https://old" |}.

Definition section (b : string) : bytes :=
  TaggedValue.encode (TaggedValue.of_StorageInfoWrapper
    {| Type_ := bytes_lit "s3";
       Data := TaggedValue.encode_descriptor (descriptor b) |}).

Definition magic : bytes := bytes_lit "CLIPARXV" ++ [x00].
Definition s3_tag : bytes := bytes_lit "s3" ++ replicate 10 x00.
Definition index : bytes := [x0a; x0b; x0c; x0d].

Definition packed (h : ClipArchiveHeader) : bytes :=
  match struct_pack (start_bytes h) (clip_file_format_version h)
          (index_length h) (index_pos h) (storage_info_length h)
          (storage_info_pos h) (storage_info_type h) with
  | Ok l => l
  | Raise _ => []
  end.

(** Header, then the descriptor section, one byte of padding, then
    the index. *)
Definition header_index_last (b : string) : ClipArchiveHeader :=
  {| start_bytes := magic; clip_file_format_version := 1;
     index_length := 4;
     index_pos := 54 + Z.of_nat (length (section b)) + 1;
     storage_info_length := Z.of_nat (length (section b));
     storage_info_pos := 54;
     storage_info_type := s3_tag |}.

Definition archive_index_last (b : string) : bytes :=
  packed (header_index_last b) ++ section b ++ [xff] ++ index.

(** Header, then the index, then the descriptor section. *)
Definition header_section_last (b : string) : ClipArchiveHeader :=
  {| start_bytes := magic; clip_file_format_version := 1;
     index_length := 4; index_pos := 54;
     storage_info_length := Z.of_nat (length (section b));
     storage_info_pos := 58;
     storage_info_type := s3_tag |}.

Definition archive_section_last (b : string) : bytes :=
  packed (header_section_last b) ++ index ++ section b.

(** The same layout under a tag that names no known backend. *)
Definition gcs_tag : bytes := bytes_lit "gcs" ++ replicate 9 x00.

Definition header_unknown_tag : ClipArchiveHeader :=
  {| start_bytes := magic; clip_file_format_version := 1;
     index_length := 4; index_pos := 54;
     storage_info_length := Z.of_nat (length (section "old"));
     storage_info_pos := 58;
     storage_info_type := gcs_tag |}.

Definition archive_unknown_tag : bytes :=
  packed header_unknown_tag ++ index ++ section "old".

Definition world (archive : bytes) : S3 :=
  {| objects := {[ source_object migrator image_key := archive ]};
     requests := [] |}.

Definition run (archive : bytes) : result unit * S3 :=
  migrate migrator image_key (world archive).

(** A store in which only the source bucket exists. *)
Definition source_only : Libraries :=
  store_libraries (fun e b =>
    bool_decide ((e, b) = (endpoint source, bucket source))).

Definition uploaded (archive : bytes) : option bytes :=
  objects (snd (run archive)) !! target_object migrator image_key.

(** The header that [migrate] hands to [update_binary]. *)
Definition new_header (h : ClipArchiveHeader) : ClipArchiveHeader :=
  set_storage_info_length h (Z.of_nat (length (section "old-bkt"))).

(** Another state of the stores with the same source archive: one more
    object, and a request already in the log. *)
Definition other_world (archive : bytes) : S3 :=
  {| objects := <[ (str_lit "https://other", str_lit "b", str_lit "k")
                   := [x2a] ]> (objects (world archive));
     requests := [GetObject (str_lit "https://other") (str_lit "b")
                    (str_lit "k") None] |}.

(** An object cut short inside the header. *)
Definition truncated : bytes := take 10 (archive_section_last "old").

(** An archive whose header places the descriptor section far beyond
    the end of the archive. *)
Definition header_far : ClipArchiveHeader :=
  {| start_bytes := magic; clip_file_format_version := 1;
     index_length := 4; index_pos := 54;
     storage_info_length := 2;
     storage_info_pos := 1000;
     storage_info_type := s3_tag |}.

Definition archive_far : bytes := packed header_far ++ index.

(** How a reader finds the descriptor of an archive: the section that
    the header locates, decoded as a wrapper and then as a descriptor. *)
Definition descriptor_of (archive : bytes) : result S3StorageInfo :=
  h ← unpack_header (stream_read CLIP_ARCHIVE_HEADER_SIZE archive);
  w ← TaggedValue.decode
        (py_slice archive (storage_info_pos h)
           (storage_info_pos h + storage_info_length h));
  d ← TaggedValue.getattr (bytes_lit "Data") w;
  TaggedValue.decode_descriptor d.

End Scenario.

(** Case analysis on a test in a hypothesis. *)
Ltac break_if :=
  match goal with
  | H : context [if ?c then _ else _] |- _ => destruct c eqn:?
  end.


(** A computation that makes no [put_object] request. *)
Definition quiet {A} (m : M A) : Prop :=
  forall s, exists evs, snd (m s) = replay evs s /\ puts evs = [].

(** A computation that fails without a [put_object] request, or fails
    on its last request, a [put_object] of the object [k] that the store
    refuses, or succeeds with one write, its last request, of [k]. *)
Definition writes_last `{Libraries} (k : str * str * str) (m : M unit)
  : Prop :=
  forall s,
    (exists e evs, m s = (Raise e, replay evs s) /\ puts evs = []) \/
    (exists evs body code,
       put_refusal k.1.1 k.1.2 k.2 body = Some code /\
       m s = (Raise (ClientError code),
              replay (PutObjectRefused k.1.1 k.1.2 k.2 body :: evs) s) /\
       puts evs = []) \/
    (exists evs body,
       m s = (Ok tt, replay (PutObject k.1.1 k.1.2 k.2 body :: evs) s) /\
       puts evs = []).


(** Libraries that give back what they stored: a ranged GET inside the
    object answers the inclusive byte range, a dumped wrapper loads
    with its [Data], a dumped descriptor loads with its [Key]. *)
Record round_trips `{Libraries} : Prop := {
  rt_range : forall (obj : bytes) (first last : Z),
    0 <= first <= last -> first < Z.of_nat (length obj) ->
    ranged_body obj first last = Ok (py_slice obj first (last + 1));
  rt_wrapper : forall (w : StorageInfoWrapper) (l : bytes),
    pygob_dump_StorageInfoWrapper w = Ok l ->
    exists v, pygob_load l = Ok v /\ attr_Data v = Ok (Data w);
  rt_info : forall (d : S3StorageInfo) (l : bytes),
    pygob_dump_S3StorageInfo d = Ok l ->
    exists v, pygob_load l = Ok v /\ attr_Key v = Ok (Key d)
}.


(** * Properties *)

(** ** Bytes and integers *)

Lemma byte_to_Z_range (b : byte) : 0 <= byte_to_Z b < 256.
Proof.
  unfold byte_to_Z. pose proof (Byte.to_N_bounded b). lia.
Qed.

Lemma nbyte_to_N (n : N) : (n < 256)%N -> Byte.to_N (nbyte n) = n.
Proof.
  intros Hn. unfold nbyte. destruct (Byte.of_N n) as [b|] eqn:E.
  - now apply Byte.to_of_N.
  - apply Byte.of_N_None_iff in E. lia.
Qed.

Lemma byte_to_of_Z (z : Z) : byte_to_Z (byte_of_Z z) = z mod 256.
Proof.
  unfold byte_to_Z, byte_of_Z.
  pose proof (Z.mod_pos_bound z 256 eq_refl) as Hm.
  fold (nbyte (Z.to_N (z mod 256))). rewrite nbyte_to_N by lia. lia.
Qed.

Lemma byte_to_Z_inj (a b : byte) : byte_to_Z a = byte_to_Z b -> a = b.
Proof.
  unfold byte_to_Z. intros E. apply N2Z.inj in E.
  pose proof (Byte.of_to_N a) as Ha. pose proof (Byte.of_to_N b) as Hb.
  rewrite E in Ha. congruence.
Qed.

Lemma byte_of_to_Z (b : byte) : byte_of_Z (byte_to_Z b) = b.
Proof.
  apply byte_to_Z_inj. rewrite byte_to_of_Z.
  apply Z.mod_small, byte_to_Z_range.
Qed.

Lemma length_le_bytes (n : nat) (z : Z) : length (le_bytes n z) = n.
Proof.
  revert z. induction n as [|n IH]; intros z; simpl; [reflexivity|].
  now rewrite IH.
Qed.

Lemma le_unsigned_le_bytes (n : nat) (z : Z) :
  le_unsigned (le_bytes n z) = z mod 256 ^ Z.of_nat n.
Proof.
  revert z. induction n as [|n IH]; intros z.
  - simpl. now rewrite Z.mod_1_r.
  - cbn [le_bytes le_unsigned]. rewrite IH, byte_to_of_Z.
    rewrite Nat2Z.inj_succ, Z.pow_succ_r by lia.
    symmetry. apply Z.rem_mul_r; [lia|]. apply Z.pow_pos_nonneg; lia.
Qed.

Lemma le_unsigned_range (l : bytes) :
  0 <= le_unsigned l < 256 ^ Z.of_nat (length l).
Proof.
  induction l as [|b r IH].
  - simpl. lia.
  - cbn [le_unsigned length]. rewrite Nat2Z.inj_succ, Z.pow_succ_r by lia.
    pose proof (byte_to_Z_range b). lia.
Qed.

Lemma le_bytes_le_unsigned (l : bytes) :
  le_bytes (length l) (le_unsigned l) = l.
Proof.
  induction l as [|b r IH]; [reflexivity|].
  cbn [length le_bytes le_unsigned].
  pose proof (byte_to_Z_range b) as Hb.
  replace (byte_to_Z b + 256 * le_unsigned r)
    with (le_unsigned r * 256 + byte_to_Z b) by lia.
  f_equal.
  - apply byte_to_Z_inj. rewrite byte_to_of_Z, Z.add_comm, Z_mod_plus_full.
    now apply Z.mod_small.
  - rewrite Z.div_add_l, Z.div_small, Z.add_0_r by lia. exact IH.
Qed.

(** ** The header codec *)

Lemma pack_B_inv (z : Z) (l : bytes) :
  pack_B z = Ok l -> length l = 1%nat /\ le_unsigned l = z.
Proof.
  unfold pack_B. destruct (_ && _) eqn:E; [|discriminate].
  intros [= <-]. split; [reflexivity|].
  cbn [le_unsigned]. rewrite byte_to_of_Z, Z.mod_small; lia.
Qed.

Lemma pack_q_inv (z : Z) (l : bytes) :
  pack_q z = Ok l -> length l = 8%nat /\ unpack_q l = z.
Proof.
  unfold pack_q. destruct (_ && _) eqn:E; [|discriminate].
  intros [= <-]. split; [reflexivity|].
  change (unpack_q (le_bytes 8 z) = z).
  unfold unpack_q. rewrite le_unsigned_le_bytes.
  change (256 ^ Z.of_nat 8) with (2 ^ 64).
  apply andb_true_iff in E as [Hlo Hhi].
  apply Z.leb_le in Hlo. apply Z.ltb_lt in Hhi.
  destruct (Z_lt_dec z 0) as [Hneg|Hpos].
  - replace (z mod 2 ^ 64) with (z + 2 ^ 64).
    + destruct (Z.ltb_spec (z + 2 ^ 64) (2 ^ 63)); lia.
    + apply Z.mod_unique with (q := -1); lia.
  - rewrite Z.mod_small by lia.
    destruct (Z.ltb_spec z (2 ^ 63)); lia.
Qed.

Lemma pack_q_Ok (z : Z) :
  - 2 ^ 63 <= z < 2 ^ 63 -> pack_q z = Ok (le_bytes 8 z).
Proof.
  intros Hz. unfold pack_q.
  destruct (Z.leb_spec (- 2 ^ 63) z); [|lia].
  destruct (Z.ltb_spec z (2 ^ 63)); [reflexivity|lia].
Qed.

Lemma length_pack_s (n : nat) (b : bytes) : length (pack_s n b) = n.
Proof.
  unfold pack_s. rewrite length_app, length_take, length_replicate. lia.
Qed.

Lemma pack_s_exact (n : nat) (b : bytes) : length b = n -> pack_s n b = b.
Proof.
  intros <-. unfold pack_s.
  rewrite firstn_all, Nat.sub_diag. apply app_nil_r.
Qed.

Lemma length_struct_pack a0 a1 a2 a3 a4 a5 a6 (l : bytes) :
  struct_pack a0 a1 a2 a3 a4 a5 a6 = Ok l -> length l = 54%nat.
Proof.
  unfold struct_pack, mbind, result_mbind, result_bind.
  destruct (pack_B a1) as [v|] eqn:E1; [|discriminate].
  destruct (pack_q a2) as [il|] eqn:E2; [|discriminate].
  destruct (pack_q a3) as [ip|] eqn:E3; [|discriminate].
  destruct (pack_q a4) as [sl|] eqn:E4; [|discriminate].
  destruct (pack_q a5) as [sp|] eqn:E5; [|discriminate].
  intros [= <-].
  apply pack_B_inv in E1 as [L1 _]. apply pack_q_inv in E2 as [L2 _].
  apply pack_q_inv in E3 as [L3 _]. apply pack_q_inv in E4 as [L4 _].
  apply pack_q_inv in E5 as [L5 _].
  rewrite !length_app, !length_pack_s. lia.
Qed.

(** Unpacking what [struct.pack] wrote gives the packed values back,
    the two byte strings cut or padded to their width. *)
Lemma struct_unpack_pack a0 a1 a2 a3 a4 a5 a6 (l : bytes) :
  struct_pack a0 a1 a2 a3 a4 a5 a6 = Ok l ->
  struct_unpack l = Ok (pack_s 9 a0, a1, a2, a3, a4, a5, pack_s 12 a6).
Proof.
  intros Hp. pose proof (length_struct_pack _ _ _ _ _ _ _ _ Hp) as Hlen.
  unfold struct_unpack. destruct (decide _) as [_|]; [|contradiction].
  revert Hp. unfold struct_pack, mbind, result_mbind, result_bind.
  destruct (pack_B a1) as [v|] eqn:E1; [|discriminate].
  destruct (pack_q a2) as [il|] eqn:E2; [|discriminate].
  destruct (pack_q a3) as [ip|] eqn:E3; [|discriminate].
  destruct (pack_q a4) as [sl|] eqn:E4; [|discriminate].
  destruct (pack_q a5) as [sp|] eqn:E5; [|discriminate].
  intros [= <-].
  apply pack_B_inv in E1 as [L1 V1]. apply pack_q_inv in E2 as [L2 V2].
  apply pack_q_inv in E3 as [L3 V3]. apply pack_q_inv in E4 as [L4 V4].
  apply pack_q_inv in E5 as [L5 V5].
  pose proof (length_pack_s 9 a0) as L0.
  pose proof (length_pack_s 12 a6) as L6.
  repeat f_equal.
  - rewrite take_app_length'; auto.
  - rewrite drop_app_length' by auto. rewrite take_app_length' by auto. exact V1.
  - change 10%nat with (9 + 1)%nat. rewrite <- drop_drop.
    rewrite drop_app_length' by auto. rewrite drop_app_length' by auto.
    rewrite take_app_length' by auto. exact V2.
  - change 18%nat with (9 + (1 + 8))%nat. rewrite <- !drop_drop.
    do 3 (rewrite drop_app_length' by auto).
    rewrite take_app_length' by auto. exact V3.
  - change 26%nat with (9 + (1 + (8 + 8)))%nat. rewrite <- !drop_drop.
    do 4 (rewrite drop_app_length' by auto).
    rewrite take_app_length' by auto. exact V4.
  - change 34%nat with (9 + (1 + (8 + (8 + 8))))%nat. rewrite <- !drop_drop.
    do 5 (rewrite drop_app_length' by auto).
    rewrite take_app_length' by (rewrite ?length_pack_s; auto). exact V5.
  - change 42%nat with (9 + (1 + (8 + (8 + (8 + 8)))))%nat.
    rewrite <- !drop_drop.
    do 6 (rewrite drop_app_length' by auto).
    apply firstn_all2. rewrite L6. lia.
Qed.

Lemma pack_header_Ok (h : ClipArchiveHeader) :
  valid_header h ->
  pack_header h =
    Ok (start_bytes h ++ [byte_of_Z (clip_file_format_version h)]
        ++ le_bytes 8 (index_length h) ++ le_bytes 8 (index_pos h)
        ++ le_bytes 8 (storage_info_length h)
        ++ le_bytes 8 (storage_info_pos h) ++ storage_info_type h).
Proof.
  intros [H0 H1 H2 H3 H4 H5 H6].
  unfold pack_header, struct_pack, mbind, result_mbind, result_bind.
  unfold pack_B.
  destruct (Z.leb_spec 0 (clip_file_format_version h)); [|lia].
  destruct (Z.leb_spec (clip_file_format_version h) 255); [|lia].
  cbn [andb]. rewrite !pack_q_Ok by assumption.
  now rewrite !pack_s_exact by assumption.
Qed.

Lemma unpack_pack_header (h : ClipArchiveHeader) (l : bytes) :
  pack_header h = Ok l ->
  unpack_header l =
    Ok (mkHeader (pack_s 9 (start_bytes h)) (clip_file_format_version h)
          (index_length h) (index_pos h) (storage_info_length h)
          (storage_info_pos h) (pack_s 12 (storage_info_type h))).
Proof.
  intros Hp. unfold unpack_header.
  now rewrite (struct_unpack_pack _ _ _ _ _ _ _ _ Hp).
Qed.

(** ** UTF-8 and the type tag *)

Lemma utf8_code_points_cons (b0 : byte) (r0 : bytes) (s : str) :
  utf8_code_points (b0 :: r0) = Some s ->
  exists c cs, s = c :: cs /\
    ((c < 128)%N -> Byte.to_N b0 = c /\ utf8_code_points r0 = Some cs).
Proof.
  cbn [utf8_code_points]. intros Hd.
  repeat first
    [ discriminate Hd
    | break_if
    | match type of Hd with
      | context [match ?r with [] => _ | _ :: _ => _ end] => destruct r
      end ];
  match type of Hd with
  | cons ?c <$> ?o = Some _ =>
      destruct o as [cs|] eqn:Ho; [|discriminate Hd];
      injection Hd as <-; exists c, cs; split; [reflexivity|]
  end;
  intros Hc;
  repeat match goal with
  | H : (_ <? _)%N = true |- _ => apply N.ltb_lt in H
  | H : (_ <? _)%N = false |- _ => apply N.ltb_ge in H
  | H : negb _ = false |- _ => apply negb_false_iff in H
  | H : is_cont _ = true |- _ => unfold is_cont in H
  | H : _ && _ = true |- _ => apply andb_true_iff in H as [? ?]
  | H : _ || _ = false |- _ => apply orb_false_iff in H as [? ?]
  | H : (_ <=? _)%N = true |- _ => apply N.leb_le in H
  end;
  try (split; [reflexivity|first [reflexivity|assumption]]); lia.
Qed.

Lemma utf8_code_points_nil (l : bytes) :
  utf8_code_points l = Some [] -> l = [].
Proof.
  destruct l as [|b r]; [reflexivity|].
  intros Hd. apply utf8_code_points_cons in Hd as (c & cs & [=] & _).
Qed.

Lemma to_N_inj (a b : byte) : Byte.to_N a = Byte.to_N b -> a = b.
Proof.
  intros E. apply byte_to_Z_inj. unfold byte_to_Z. now rewrite E.
Qed.

(** Only the two bytes of [b"s3"] decode to the string ["s3"]. *)
Lemma utf8_code_points_s3 (l : bytes) :
  utf8_code_points l = Some (str_lit "s3") -> l = bytes_lit "s3".
Proof.
  intros Hd. destruct l as [|b0 r0]; [discriminate|].
  apply utf8_code_points_cons in Hd as (c & cs & [= <- <-] & Hc).
  destruct Hc as [E0 Hd]; [reflexivity|].
  destruct r0 as [|b1 r1]; [discriminate|].
  apply utf8_code_points_cons in Hd as (c & cs & [= <- <-] & Hc).
  destruct Hc as [E1 Hd]; [reflexivity|].
  apply utf8_code_points_nil in Hd as ->.
  change (bytes_lit "s3") with [x73; x33].
  f_equal; [|f_equal]; apply to_N_inj; assumption.
Qed.

(** ** The reference codec *)

Module TaggedValueFacts.
Import TaggedValue.

Lemma dec_atoms_enc_atom (a rest cur : bytes) :
  dec_atoms (enc_atom a ++ rest) cur
  = cons (rev cur ++ a) <$> dec_atoms rest [].
Proof.
  revert cur. induction a as [|b r IH]; intros cur.
  - cbn. now rewrite app_nil_r.
  - cbn. rewrite IH. cbn [rev]. now rewrite <- app_assoc.
Qed.

Lemma dec_atoms_enc_fields (fs : list (bytes * bytes)) :
  dec_atoms (enc_fields fs) [] = Some (atoms_of fs).
Proof.
  induction fs as [|[n c] r IH]; [reflexivity|].
  cbn [enc_fields atoms_of].
  rewrite dec_atoms_enc_atom, dec_atoms_enc_atom, IH. reflexivity.
Qed.

Lemma pair_up_atoms_of (fs : list (bytes * bytes)) :
  pair_up (atoms_of fs) = Some fs.
Proof.
  induction fs as [|[n c] r IH]; [reflexivity|].
  cbn [atoms_of pair_up]. now rewrite IH.
Qed.

Lemma decode_encode (v : value) : decode (encode v) = Ok v.
Proof.
  destruct v as [tag fs]. unfold decode, encode. cbn [type_tag fields].
  rewrite dec_atoms_enc_atom, dec_atoms_enc_fields. cbn.
  now rewrite pair_up_atoms_of.
Qed.

Lemma decode_encode_descriptor (d : S3StorageInfo) :
  decode_descriptor (encode_descriptor d) = Ok d.
Proof.
  unfold decode_descriptor, encode_descriptor.
  rewrite decode_encode. destruct d as [b r k e]. reflexivity.
Qed.

End TaggedValueFacts.

(** ** Running the monad *)

Lemma bind_Ok {A B} (m : M A) (k : A -> M B) (s s' : S3) (b : B) :
  (m ≫= k) s = (Ok b, s') ->
  exists a s1, m s = (Ok a, s1) /\ k a s1 = (Ok b, s').
Proof.
  unfold mbind, M_bind. destruct (m s) as [[a|e] s1]; [|discriminate].
  intros Hk. now exists a, s1.
Qed.

Lemma lift_Ok {A} (r : result A) (s s' : S3) (a : A) :
  lift r s = (Ok a, s') -> r = Ok a /\ s' = s.
Proof. unfold lift. now intros [= -> ->]. Qed.

Section MigrateFacts.
Context `{Libraries}.
Variable self : ImageMigrator.

Lemma get_object_Ok client Bucket_ Key_ Range s s' (body : bytes) :
  get_object client Bucket_ Key_ Range s = (Ok body, s') ->
  exists obj,
    objects s !! (endpoint client, Bucket_, Key_) = Some obj /\
    match Range with
    | None => Ok obj
    | Some (first, last) => ranged_body obj first last
    end = Ok body /\
    s' = logged (GetObject (endpoint client) Bucket_ Key_ Range) s.
Proof.
  unfold get_object. destruct (objects s !! _) as [obj|]; [|discriminate].
  intros Hg. exists obj. split; [reflexivity|].
  destruct Range as [[first last]|]; injection Hg as Hg <-;
    (split; [congruence|reflexivity]).
Qed.

Lemma get_header_Ok image_key s s' h :
  get_header self image_key s = (Ok h, s') ->
  exists full,
    objects s !! source_object self image_key = Some full /\
    unpack_header (stream_read CLIP_ARCHIVE_HEADER_SIZE full) = Ok h /\
    s' = logged (GetObject (endpoint (source_bucket self))
                   (bucket (source_bucket self)) image_key None) s.
Proof.
  unfold get_header. intros Hg.
  apply bind_Ok in Hg as (response & s1 & Hget & Hg).
  apply get_object_Ok in Hget as (full & Hfull & [= <-] & ->).
  exists full. split; [exact Hfull|].
  apply bind_Ok in Hg as (unpacked_data & s1 & Hu & Hg).
  apply lift_Ok in Hu as [Hu ->].
  unfold unpack_header, mbind, result_mbind, result_bind.
  destruct (struct_unpack _) as [[[[[[[u0 u1] u2] u3] u4] u5] u6]|e].
  - injection Hu as <-. injection Hg as <- <-. now split.
  - destruct e; try discriminate Hu. injection Hu as <-. discriminate Hg.
Qed.

Lemma migrate_Ok_inv image_key s s' :
  migrate self image_key s = (Ok tt, s') ->
  exists m,
    objects s !! source_object self image_key = Some (m_full_data m) /\
    migrated self m /\
    objects s' = <[target_object self image_key := m_updated_data m]> (objects s) /\
    requests s' = run_requests self image_key m ++ requests s /\
    put_refusal (endpoint (target_bucket self)) (bucket (target_bucket self))
      image_key (m_updated_data m) = None.
Proof.
  unfold migrate. intros Hm.
  apply bind_Ok in Hm as (h & s1 & Hh & Hm).
  apply get_header_Ok in Hh as (full & Hfull & Hunp & ->).
  apply bind_Ok in Hm as (tag & s1 & Htag & Hm).
  apply lift_Ok in Htag as [Htag ->].
  destruct (str_eqb tag _) eqn:Heq; cbn [negb] in Hm; [|discriminate].
  apply bind_Ok in Hm as (info & s1 & Hinfo & Hm).
  unfold get_s3_storage_info in Hinfo.
  apply bind_Ok in Hinfo as (body & s2 & Hbody & Hinfo).
  apply get_object_Ok in Hbody as (full' & Hfull' & Hbody & ->).
  cbn [logged objects] in Hfull'. unfold source_object in Hfull.
  rewrite Hfull in Hfull'. injection Hfull' as <-.
  apply bind_Ok in Hinfo as (wrapper & s2 & Hw & Hinfo).
  apply lift_Ok in Hw as [Hw ->].
  apply bind_Ok in Hinfo as (d & s2 & Hd & Hinfo).
  apply lift_Ok in Hd as [Hd ->].
  apply bind_Ok in Hinfo as (info' & s2 & Hi & Hinfo).
  apply lift_Ok in Hi as [Hi ->].
  injection Hinfo as -> <-.
  apply bind_Ok in Hm as (b & s1 & Hb & Hm). apply lift_Ok in Hb as [Hb ->].
  apply bind_Ok in Hm as (r & s1 & Hr & Hm). apply lift_Ok in Hr as [Hr ->].
  apply bind_Ok in Hm as (k & s1 & Hk & Hm). apply lift_Ok in Hk as [Hk ->].
  apply bind_Ok in Hm as (e & s1 & He & Hm). apply lift_Ok in He as [He ->].
  apply bind_Ok in Hm as (nd & s1 & Hnd & Hm). apply lift_Ok in Hnd as [Hnd ->].
  apply bind_Ok in Hm as (nw & s1 & Hnw & Hm). apply lift_Ok in Hnw as [Hnw ->].
  apply bind_Ok in Hm as (v & s1 & Hv & Hm). apply lift_Ok in Hv as [Hv ->].
  apply bind_Ok in Hm as (full' & s1 & Hdl & Hm).
  unfold download_full_archive in Hdl.
  apply bind_Ok in Hdl as (resp & s2 & Hget & Hdl).
  apply get_object_Ok in Hget as (full'' & Hfull'' & [= <-] & ->).
  cbn [logged objects] in Hfull''.
  rewrite Hfull in Hfull''. injection Hfull'' as <-.
  injection Hdl as <- <-.
  apply bind_Ok in Hm as (updated & s1 & Hupd & Hm).
  apply lift_Ok in Hupd as [Hupd ->].
  unfold upload_to_target_bucket, put_object in Hm.
  destruct (put_refusal _ _ _ updated) as [code|] eqn:Hput; [discriminate|].
  injection Hm as <-.
  exists (mkMigration full h info (mkS3StorageInfo b r k e) nw updated).
  cbn [m_full_data m_updated_data]. split; [exact Hfull|]. split.
  - constructor; cbn [m_full_data m_header m_s3_info m_new_s3_info
      m_new_wrapper_data m_updated_data Bucket Region Key Endpoint]; eauto 10.
    unfold bytes_decode_utf8 in Htag.
    destruct (utf8_code_points _) as [t|] eqn:Ht; [|discriminate].
    injection Htag as ->. apply utf8_code_points_s3.
    unfold str_eqb in Heq. apply bool_decide_eq_true in Heq. now rewrite <- Heq.
  - cbn [m_updated_data]. repeat split. exact Hput.
Qed.
End MigrateFacts.

(** ** Slices and the rewrite *)

Lemma length_py_slice {A} (l : list A) (lo hi : Z) :
  0 <= lo <= hi -> hi <= Z.of_nat (length l) ->
  Z.of_nat (length (py_slice l lo hi)) = hi - lo.
Proof.
  intros Hlo Hhi. unfold py_slice, slice_index.
  destruct (Z.ltb_spec lo 0); [lia|]. destruct (Z.ltb_spec hi 0); [lia|].
  rewrite length_take, length_drop. lia.
Qed.

Lemma length_py_slice_from {A} (l : list A) (lo : Z) :
  0 <= lo <= Z.of_nat (length l) ->
  Z.of_nat (length (py_slice_from l lo)) = Z.of_nat (length l) - lo.
Proof.
  intros Hlo. unfold py_slice_from, slice_index.
  destruct (Z.ltb_spec lo 0); [lia|]. rewrite length_drop. lia.
Qed.

Lemma py_slice_from_beyond {A} (l : list A) (lo : Z) :
  Z.of_nat (length l) <= lo -> py_slice_from l lo = [].
Proof.
  intros Hlo. unfold py_slice_from, slice_index.
  destruct (Z.ltb_spec lo 0); [lia|]. apply drop_ge. lia.
Qed.

Section Rewrite.
Context `{Libraries}.
Variable self : ImageMigrator.

Lemma update_binary_Ok_inv full_data header new_s3_info_data (out : bytes) :
  update_binary full_data header new_s3_info_data = Ok out ->
  exists updated_header,
    pack_header header = Ok updated_header /\
    out = updated_header
          ++ py_slice full_data CLIP_ARCHIVE_HEADER_SIZE (storage_info_pos header)
          ++ new_s3_info_data
          ++ py_slice_from full_data
               (storage_info_pos header + storage_info_length header).
Proof.
  unfold update_binary, pack_header, mbind, result_mbind, result_bind.
  destruct (struct_pack _ _ _ _ _ _ _) as [hdr|]; [|discriminate].
  intros [= <-]. now exists hdr.
Qed.

(** The first 54 bytes of the rewritten archive decode to the header
    that was passed in, byte strings cut or padded to their width. *)
Lemma update_binary_header full_data header new_s3_info_data (out : bytes) :
  update_binary full_data header new_s3_info_data = Ok out ->
  unpack_header (stream_read CLIP_ARCHIVE_HEADER_SIZE out)
  = Ok (mkHeader (pack_s 9 (start_bytes header))
          (clip_file_format_version header) (index_length header)
          (index_pos header) (storage_info_length header)
          (storage_info_pos header) (pack_s 12 (storage_info_type header))).
Proof.
  intros Hu. apply update_binary_Ok_inv in Hu as (hdr & Hp & ->).
  pose proof (length_struct_pack _ _ _ _ _ _ _ _ Hp) as Hlen.
  unfold stream_read, CLIP_ARCHIVE_HEADER_SIZE. cbn [Z.ltb Z.compare].
  change (Z.to_nat 54) with 54%nat.
  rewrite take_app_length' by (symmetry; exact Hlen).
  now apply unpack_pack_header.
Qed.

Lemma get_header_run image_key s full h :
  objects s !! source_object self image_key = Some full ->
  unpack_header (stream_read CLIP_ARCHIVE_HEADER_SIZE full) = Ok h ->
  get_header self image_key s
  = (Ok h, logged (GetObject (endpoint (source_bucket self))
                     (bucket (source_bucket self)) image_key None) s).
Proof.
  intros Hfull Hunp. unfold get_header, get_object, mbind, M_bind, lift.
  unfold source_object in Hfull. rewrite Hfull.
  unfold unpack_header, mbind, result_mbind, result_bind in Hunp.
  destruct (struct_unpack _) as [[[[[[[u0 u1] u2] u3] u4] u5] u6]|e];
    [|discriminate].
  injection Hunp as <-. reflexivity.
Qed.

(** A tag other than [b"s3"] stops [migrate] after its first request. *)
Lemma migrate_unknown_tag image_key s full h :
  objects s !! source_object self image_key = Some full ->
  unpack_header (stream_read CLIP_ARCHIVE_HEADER_SIZE full) = Ok h ->
  bytes_strip x00 (storage_info_type h) <> bytes_lit "s3" ->
  migrate self image_key s
  = (Raise (match utf8_code_points (bytes_strip x00 (storage_info_type h)) with
            | Some _ => ValueError_unknown_type (storage_info_type h)
            | None => UnicodeDecodeError
            end),
     logged (GetObject (endpoint (source_bucket self))
               (bucket (source_bucket self)) image_key None) s).
Proof.
  intros Hfull Hunp Htag. unfold migrate.
  unfold mbind at 1. unfold M_bind at 1.
  rewrite (get_header_run _ _ _ _ Hfull Hunp).
  unfold mbind at 1. unfold M_bind at 1. unfold lift at 1.
  unfold bytes_decode_utf8.
  destruct (utf8_code_points _) as [tag|] eqn:Hd; [|reflexivity].
  destruct (str_eqb tag (str_lit "s3")) eqn:Heq; [|reflexivity].
  exfalso. apply Htag, utf8_code_points_s3.
  apply bool_decide_eq_true in Heq. now rewrite <- Heq.
Qed.

Lemma get_header_short image_key s full :
  objects s !! source_object self image_key = Some full ->
  (length full < 54)%nat ->
  get_header self image_key s
  = (Raise (UnboundLocalError (str_lit "unpacked_data")),
     logged (GetObject (endpoint (source_bucket self))
               (bucket (source_bucket self)) image_key None) s).
Proof.
  intros Hfull Hlen. unfold get_header, get_object, mbind, M_bind, lift.
  unfold source_object in Hfull. rewrite Hfull.
  unfold struct_unpack.
  destruct (decide _) as [E|]; [|reflexivity].
  exfalso. revert E. unfold stream_read, CLIP_ARCHIVE_HEADER_SIZE.
  cbn [Z.ltb Z.compare]. rewrite length_take. lia.
Qed.

End Rewrite.

(** ** Where the rewrite puts the new section *)

Lemma py_slice_from_app_length {A} (l1 l2 : list A) (n : Z) :
  n = Z.of_nat (length l1) -> py_slice_from (l1 ++ l2) n = l2.
Proof.
  intros ->. unfold py_slice_from, slice_index.
  destruct (Z.ltb_spec (Z.of_nat (length l1)) 0); [lia|].
  rewrite length_app, Nat2Z.inj_add, Z.min_l, Nat2Z.id by lia.
  now apply drop_app_length.
Qed.

Lemma py_slice_app_middle {A} (l1 l2 l3 : list A) (lo hi : Z) :
  lo = Z.of_nat (length l1) -> hi = lo + Z.of_nat (length l2) ->
  py_slice (l1 ++ l2 ++ l3) lo hi = l2.
Proof.
  intros -> ->. unfold py_slice, slice_index.
  destruct (Z.ltb_spec (Z.of_nat (length l1)) 0); [lia|].
  destruct (Z.ltb_spec (Z.of_nat (length l1) + Z.of_nat (length l2)) 0); [lia|].
  rewrite !length_app, !Nat2Z.inj_add, !Z.min_l by lia.
  rewrite Nat2Z.id, drop_app_length.
  replace (Z.to_nat _) with (length l2) by lia.
  now apply take_app_length.
Qed.

(** The output of [update_binary] when the section starts inside the
    input, at or after the end of the header. *)
Lemma update_binary_layout full_data header new_s3_info_data (out : bytes) :
  update_binary full_data header new_s3_info_data = Ok out ->
  CLIP_ARCHIVE_HEADER_SIZE <= storage_info_pos header
    <= Z.of_nat (length full_data) ->
  exists updated_header,
    pack_header header = Ok updated_header /\
    length updated_header = 54%nat /\
    Z.of_nat (length (py_slice full_data 54 (storage_info_pos header)))
    = storage_info_pos header - 54 /\
    out = updated_header
          ++ py_slice full_data 54 (storage_info_pos header)
          ++ new_s3_info_data
          ++ py_slice_from full_data
               (storage_info_pos header + storage_info_length header).
Proof.
  unfold CLIP_ARCHIVE_HEADER_SIZE. intros Hu Hpos.
  apply update_binary_Ok_inv in Hu as (hdr & Hp & ->).
  exists hdr. split; [exact Hp|].
  split; [exact (length_struct_pack _ _ _ _ _ _ _ _ Hp)|].
  split; [|reflexivity]. apply length_py_slice; lia.
Qed.

(** When the section starts inside the input, at or after byte 54,
    the new section lies in the output at [storage_info_pos]. *)
Lemma update_binary_places_section
    full_data header new_s3_info_data (out : bytes) :
  update_binary full_data header new_s3_info_data = Ok out ->
  CLIP_ARCHIVE_HEADER_SIZE <= storage_info_pos header
    <= Z.of_nat (length full_data) ->
  py_slice out (storage_info_pos header)
    (storage_info_pos header + Z.of_nat (length new_s3_info_data))
  = new_s3_info_data.
Proof.
  intros Hu Hpos.
  destruct (update_binary_layout _ _ _ _ Hu Hpos) as (hdr & _ & Hh & Ha & ->).
  rewrite (app_assoc hdr). apply py_slice_app_middle; [|reflexivity].
  rewrite length_app, Nat2Z.inj_add. lia.
Qed.

(** ** Dependence on the source object only *)

Lemma replay_nil (s : S3) : replay [] s = s.
Proof. now destruct s. Qed.

Lemma replay_app (evs2 evs1 : list s3_request) (s : S3) :
  replay (evs2 ++ evs1) s = replay evs2 (replay evs1 s).
Proof.
  unfold replay. cbn [objects requests]. now rewrite foldr_app, app_assoc.
Qed.

Lemma replay_lookup (evs : list s3_request) (k : str * str * str) (s1 s2 : S3) :
  objects s1 !! k = objects s2 !! k ->
  objects (replay evs s1) !! k = objects (replay evs s2) !! k.
Proof.
  intros Hk. unfold replay. cbn [objects].
  induction evs as [|r evs IH]; [exact Hk|].
  cbn [foldr].
  destruct r as [e b key rg|e b key body|e b key body]; cbn [write];
    [exact IH| |exact IH].
  rewrite !lookup_insert. now destruct (decide _).
Qed.

Section ReadsOnly.
Context {A B : Type}.
Variable k : str * str * str.

Lemma reads_only_ret (a : A) : reads_only k (mret a).
Proof.
  intros s1 s2 _. exists (Ok a), []. now rewrite !replay_nil.
Qed.

Lemma reads_only_lift (r : result A) : reads_only k (lift r).
Proof.
  intros s1 s2 _. exists r, []. now rewrite !replay_nil.
Qed.

Lemma reads_only_raise (e : exn) : reads_only k (raise e : M A).
Proof.
  intros s1 s2 _. exists (Raise e), []. now rewrite !replay_nil.
Qed.

Lemma reads_only_bind (m : M A) (f : A -> M B) :
  reads_only k m -> (forall a, reads_only k (f a)) -> reads_only k (m ≫= f).
Proof.
  intros Hm Hf s1 s2 Hk.
  destruct (Hm s1 s2 Hk) as (r & evs & E1 & E2).
  unfold mbind, M_bind. rewrite E1, E2.
  destruct r as [a|e].
  - destruct (Hf a (replay evs s1) (replay evs s2)) as (r' & evs' & E1' & E2').
    { now apply replay_lookup. }
    exists r', (evs' ++ evs). now rewrite E1', E2', !replay_app.
  - now exists (Raise e), evs.
Qed.

End ReadsOnly.

Section MigrateReads.
Context `{Libraries}.
Variable self : ImageMigrator.

Lemma reads_only_get_object image_key Range :
  reads_only (source_object self image_key)
    (get_object (source_bucket self) (bucket (source_bucket self))
       image_key Range).
Proof.
  intros s1 s2 Hk. unfold get_object, source_object in *. rewrite Hk.
  set (ev := GetObject (endpoint (source_bucket self))
               (bucket (source_bucket self)) image_key Range).
  destruct (objects s2 !! _) as [obj|].
  - destruct Range as [[first last]|]; eexists _, [ev]; split; reflexivity.
  - eexists _, [ev]; split; reflexivity.
Qed.

Lemma reads_only_put_object k client Bucket_ Key_ Body :
  reads_only k (put_object client Bucket_ Key_ Body).
Proof.
  intros s1 s2 _. unfold put_object.
  destruct (put_refusal _ _ _ _) as [code|].
  - exists (Raise (ClientError code)),
      [PutObjectRefused (endpoint client) Bucket_ Key_ Body].
    split; reflexivity.
  - exists (Ok tt), [PutObject (endpoint client) Bucket_ Key_ Body].
    split; reflexivity.
Qed.

Lemma reads_only_get_header image_key :
  reads_only (source_object self image_key) (get_header self image_key).
Proof.
  unfold get_header. apply reads_only_bind; [apply reads_only_get_object|].
  intros response. apply reads_only_bind; [apply reads_only_lift|].
  intros [[[[[[[u0 u1] u2] u3] u4] u5] u6]|].
  - apply reads_only_ret.
  - apply reads_only_raise.
Qed.

Lemma reads_only_migrate image_key :
  reads_only (source_object self image_key) (migrate self image_key).
Proof.
  unfold migrate, get_s3_storage_info, download_full_archive,
    upload_to_target_bucket.
  apply reads_only_bind; [apply reads_only_get_header|]. intros header.
  apply reads_only_bind; [apply reads_only_lift|]. intros tag.
  destruct (negb _); [apply reads_only_raise|].
  repeat first
    [ apply reads_only_lift
    | apply reads_only_ret
    | apply reads_only_get_object
    | apply reads_only_put_object
    | apply reads_only_bind; [|intros ?] ].
Qed.

End MigrateReads.

(** ** What a successful migration uploads *)

Section Claims.
Context `{Libraries}.
Variable self : ImageMigrator.

Lemma migrate_Ok_run image_key s :
  fst (migrate self image_key s) = Ok tt ->
  exists m,
    objects s !! source_object self image_key = Some (m_full_data m) /\
    migrated self m /\
    objects (snd (migrate self image_key s)) !! target_object self image_key
    = Some (m_updated_data m) /\
    requests (snd (migrate self image_key s))
    = run_requests self image_key m ++ requests s.
Proof.
  destruct (migrate self image_key s) as [r s'] eqn:E. cbn [fst snd].
  intros ->. apply migrate_Ok_inv in E as (m & Hfull & Hm & Hobj & Hreq & _).
  exists m. rewrite Hobj, lookup_insert_eq. auto.
Qed.

(** C3 (as amended).  For every successful migration, the header of the
    uploaded archive carries [index_pos] and [index_length] exactly as
    they were decoded from the source archive: the rewrite does not
    move the index, whatever the change of length of the descriptor
    section.  Only [storage_info_length] is replaced. *)
Theorem migrate_keeps_index_pos image_key s :
  fst (migrate self image_key s) = Ok tt ->
  exists m h',
    objects s !! source_object self image_key = Some (m_full_data m) /\
    migrated self m /\
    objects (snd (migrate self image_key s)) !! target_object self image_key
    = Some (m_updated_data m) /\
    unpack_header (stream_read CLIP_ARCHIVE_HEADER_SIZE (m_updated_data m))
    = Ok h' /\
    index_pos h' = index_pos (m_header m) /\
    index_length h' = index_length (m_header m) /\
    storage_info_pos h' = storage_info_pos (m_header m).
Proof.
  intros Hok. apply migrate_Ok_run in Hok as (m & Hfull & Hm & Hobj & _).
  pose proof (update_binary_header _ _ _ _ (mig_updated_data _ _ Hm)) as Hh.
  eexists m, _. split; [exact Hfull|]. split; [exact Hm|].
  split; [exact Hobj|]. split; [exact Hh|]. cbn. auto.
Qed.

(** C5.  For every successful migration, the [Key] of the descriptor
    written into the uploaded archive is the [Key] of the descriptor
    decoded from the descriptor section of the source archive, byte for
    byte.  The descriptor with that [Key] is dumped and wrapped, and the
    uploaded object is 54 bytes of header, the source bytes from byte
    54 up to the section, the dumped wrapper, and the source bytes
    after the section: the wrapper is in the uploaded bytes.  When the
    section starts inside the source archive, at or after byte 54, the
    wrapper lies in the uploaded archive at [storage_info_pos]; and
    with libraries that give back what they stored, loading the
    uploaded wrapper and then its [Data] gives a descriptor whose
    [Key] is the one read from the source. *)
Theorem migrate_preserves_Key image_key s :
  fst (migrate self image_key s) = Ok tt ->
  exists m new_s3_info_data updated_header,
    objects s !! source_object self image_key = Some (m_full_data m) /\
    migrated self m /\
    attr_Key (m_s3_info m) = Ok (Key (m_new_s3_info m)) /\
    pygob_dump_S3StorageInfo (m_new_s3_info m) = Ok new_s3_info_data /\
    pygob_dump_StorageInfoWrapper
      {| Type_ := bytes_lit "s3"; Data := new_s3_info_data |}
    = Ok (m_new_wrapper_data m) /\
    update_binary (m_full_data m)
      (set_storage_info_length (m_header m)
         (Z.of_nat (length (m_new_wrapper_data m))))
      (m_new_wrapper_data m)
    = Ok (m_updated_data m) /\
    objects (snd (migrate self image_key s)) !! target_object self image_key
    = Some (m_updated_data m) /\
    length updated_header = 54%nat /\
    m_updated_data m
    = updated_header
      ++ py_slice (m_full_data m) 54 (storage_info_pos (m_header m))
      ++ m_new_wrapper_data m
      ++ py_slice_from (m_full_data m)
           (storage_info_pos (m_header m)
            + Z.of_nat (length (m_new_wrapper_data m))) /\
    (CLIP_ARCHIVE_HEADER_SIZE <= storage_info_pos (m_header m)
       <= Z.of_nat (length (m_full_data m)) ->
     py_slice (m_updated_data m) (storage_info_pos (m_header m))
       (storage_info_pos (m_header m)
        + Z.of_nat (length (m_new_wrapper_data m)))
     = m_new_wrapper_data m) /\
    (round_trips ->
     exists wrapper s3_info,
       pygob_load (m_new_wrapper_data m) = Ok wrapper /\
       attr_Data wrapper = Ok new_s3_info_data /\
       pygob_load new_s3_info_data = Ok s3_info /\
       attr_Key s3_info = attr_Key (m_s3_info m)).
Proof.
  intros Hok. apply migrate_Ok_run in Hok as (m & Hfull & Hm & Hobj & _).
  destruct (mig_new_wrapper_data _ _ Hm) as (nd & Hnd & Hnw).
  pose proof (mig_updated_data _ _ Hm) as Hu.
  destruct (update_binary_Ok_inv _ _ _ _ Hu) as (hdr & Hp & Hout).
  exists m, nd, hdr. split; [exact Hfull|]. split; [exact Hm|].
  split; [exact (mig_Key _ _ Hm)|]. split; [exact Hnd|].
  split; [exact Hnw|]. split; [exact Hu|]. split; [exact Hobj|].
  split; [exact (length_struct_pack _ _ _ _ _ _ _ _ Hp)|].
  split; [exact Hout|]. split.
  - intros Hpos. exact (update_binary_places_section _ _ _ _ Hu Hpos).
  - intros Hrt.
    destruct (rt_wrapper Hrt _ _ Hnw) as (w & Hw & HD).
    destruct (rt_info Hrt _ _ Hnd) as (v & Hv & HK).
    exists w, v. split; [exact Hw|]. split; [exact HD|].
    split; [exact Hv|]. rewrite HK. symmetry. exact (mig_Key _ _ Hm).
Qed.

(** C6.  For every successful migration, the [storage_info_length] of
    the header at the front of the uploaded archive is the length of
    the newly encoded wrapper, the bytes that the rewrite puts in. *)
Theorem migrate_sets_storage_info_length image_key s :
  fst (migrate self image_key s) = Ok tt ->
  exists m h',
    objects s !! source_object self image_key = Some (m_full_data m) /\
    migrated self m /\
    objects (snd (migrate self image_key s)) !! target_object self image_key
    = Some (m_updated_data m) /\
    unpack_header (stream_read CLIP_ARCHIVE_HEADER_SIZE (m_updated_data m))
    = Ok h' /\
    storage_info_length h' = Z.of_nat (length (m_new_wrapper_data m)).
Proof.
  intros Hok. apply migrate_Ok_run in Hok as (m & Hfull & Hm & Hobj & _).
  pose proof (update_binary_header _ _ _ _ (mig_updated_data _ _ Hm)) as Hh.
  eexists m, _. split; [exact Hfull|]. split; [exact Hm|].
  split; [exact Hobj|]. split; [exact Hh|]. cbn. auto.
Qed.

(** C4.  When the type tag of the decoded header, stripped of NUL
    bytes, is not [b"s3"], [migrate] raises a [ValueError] (the
    script's unsupported-backend error; it is the [ValueError] with the
    unknown-type message whenever the tag is valid UTF-8, and the
    [UnicodeDecodeError] subclass of [ValueError] otherwise), no object
    of any store changes and no [put_object] request is made. *)
Theorem migrate_rejects_unknown_tag image_key s full h :
  objects s !! source_object self image_key = Some full ->
  unpack_header (stream_read CLIP_ARCHIVE_HEADER_SIZE full) = Ok h ->
  bytes_strip x00 (storage_info_type h) <> bytes_lit "s3" ->
  exists e,
    fst (migrate self image_key s) = Raise e /\
    is_ValueError e = true /\
    (forall tag,
       bytes_decode_utf8 (bytes_strip x00 (storage_info_type h)) = Ok tag ->
       e = ValueError_unknown_type (storage_info_type h)) /\
    objects (snd (migrate self image_key s)) = objects s /\
    puts (requests (snd (migrate self image_key s))) = puts (requests s).
Proof.
  intros Hfull Hunp Htag.
  rewrite (migrate_unknown_tag _ _ _ _ _ Hfull Hunp Htag). cbn [fst snd].
  eexists. split; [reflexivity|]. unfold bytes_decode_utf8.
  destruct (utf8_code_points _) as [t|]; repeat split; auto; discriminate.
Qed.

(** C7 (what the code does).  When the source object has fewer than 54
    bytes, [struct.unpack] fails with [struct.error], but [get_header]
    catches it, prints, and then fails on the unbound local variable
    [unpacked_data]: the caller sees an [UnboundLocalError], not a
    decode error. *)
Theorem get_header_short_input image_key s full :
  objects s !! source_object self image_key = Some full ->
  (length full < 54)%nat ->
  struct_unpack (stream_read CLIP_ARCHIVE_HEADER_SIZE full) = Raise StructError /\
  fst (get_header self image_key s)
  = Raise (UnboundLocalError (str_lit "unpacked_data")).
Proof.
  intros Hfull Hlen. rewrite (get_header_short _ _ _ _ Hfull Hlen).
  split; [|reflexivity]. unfold struct_unpack.
  destruct (decide _) as [E|]; [|reflexivity].
  exfalso. revert E. unfold stream_read, CLIP_ARCHIVE_HEADER_SIZE.
  cbn [Z.ltb Z.compare]. rewrite length_take. lia.
Qed.

(** C9.  The outcome of [migrate] and the requests it makes, the
    uploaded body among them, depend on the stores only through the
    source object: from any two states that hold the same bytes under
    the source key, [migrate] returns the same result and makes the same
    requests, so that two runs upload byte-identical archives. *)
Theorem migrate_deterministic image_key s1 s2 :
  objects s1 !! source_object self image_key
  = objects s2 !! source_object self image_key ->
  exists r evs,
    migrate self image_key s1 = (r, replay evs s1) /\
    migrate self image_key s2 = (r, replay evs s2).
Proof. apply reads_only_migrate. Qed.

End Claims.

(** C10 (as amended).  When the header passed to [update_binary]
    carries the length of the new section, the section starts at or
    after the end of the header, and the new section ends inside the
    input, the returned archive is as long as the input. *)
Theorem update_binary_same_length
    (full_data : bytes) (header : ClipArchiveHeader)
    (new_s3_info_data out : bytes) :
  storage_info_length header = Z.of_nat (length new_s3_info_data) ->
  CLIP_ARCHIVE_HEADER_SIZE <= storage_info_pos header ->
  storage_info_pos header + Z.of_nat (length new_s3_info_data)
  <= Z.of_nat (length full_data) ->
  update_binary full_data header new_s3_info_data = Ok out ->
  length out = length full_data.
Proof.
  unfold CLIP_ARCHIVE_HEADER_SIZE. intros Hlen Hpos Hend Hu.
  apply update_binary_Ok_inv in Hu as (hdr & Hp & ->).
  pose proof (length_struct_pack _ _ _ _ _ _ _ _ Hp) as Hh.
  apply Nat2Z.inj. rewrite !length_app, !Nat2Z.inj_add.
  unfold CLIP_ARCHIVE_HEADER_SIZE.
  rewrite length_py_slice, length_py_slice_from by lia. lia.
Qed.

(** C8.  Unpacking the 54 bytes packed from a header with fields of
    the widths of the format gives the header back; and decoding the
    tagged-value encoding of a storage descriptor gives the descriptor
    back. *)
Theorem codecs_round_trip (h : ClipArchiveHeader) (d : S3StorageInfo) :
  valid_header h ->
  (exists l, pack_header h = Ok l /\ length l = 54%nat /\
             unpack_header l = Ok h) /\
  TaggedValue.decode_descriptor (TaggedValue.encode_descriptor d) = Ok d.
Proof.
  intros Hv. split; [|apply TaggedValueFacts.decode_encode_descriptor].
  pose proof (pack_header_Ok h Hv) as Hp. eexists. split; [exact Hp|].
  split; [exact (length_struct_pack _ _ _ _ _ _ _ _ Hp)|].
  rewrite (unpack_pack_header _ _ Hp). destruct Hv as [H0 _ _ _ _ _ H6].
  rewrite !pack_s_exact by assumption. now destruct h.
Qed.

(** ** The scenario, run *)

Module ScenarioFacts.
Import Scenario.

(** C1 (what the code does).  The source configuration names the
    bucket [old-bkt] at [https://old] in region [auto], the target
    names [new-bkt] at [https://new] in [us-east-1].  The migration
    succeeds, and the descriptor of the archive it uploads to the
    target carries the coordinates of the SOURCE configuration, none of
    them those of the target. *)
Theorem migrated_descriptor_names_the_source :
  fst (run (archive_section_last "old")) = Ok tt /\
  descriptor_of (archive_section_last "old")
  = Ok {| Bucket := bytes_lit "old"; Region := bytes_lit "auto";
          Key := bytes_lit "obj.bin"; Endpoint := bytes_lit "https://old" |} /\
  descriptor_of <$> uploaded (archive_section_last "old")
  = Some (Ok {| Bucket := bytes_lit "old-bkt"; Region := bytes_lit "auto";
                Key := bytes_lit "obj.bin";
                Endpoint := bytes_lit "https://old" |}) /\
  str_encode_utf8 (bucket (source_bucket migrator)) = Ok (bytes_lit "old-bkt") /\
  str_encode_utf8 (region (source_bucket migrator)) = Ok (bytes_lit "auto") /\
  str_encode_utf8 (endpoint (source_bucket migrator))
  = Ok (bytes_lit "https://old") /\
  str_encode_utf8 (bucket (target_bucket migrator)) = Ok (bytes_lit "new-bkt") /\
  str_encode_utf8 (region (target_bucket migrator)) = Ok (bytes_lit "us-east-1") /\
  str_encode_utf8 (endpoint (target_bucket migrator))
  = Ok (bytes_lit "https://new").
Proof. repeat split; vm_compute; reflexivity. Qed.

(** C2 (what the code does).  The archive holds the header, a
    descriptor section of 323 bytes, and five more bytes: one of
    padding and the index.  The new section has 339 bytes.  The
    specification's splice keeps the five bytes after the old section;
    the uploaded archive ends with the new section, and the five bytes
    are lost.  When the new section is the shorter one (by 32 bytes),
    the last 32 bytes of the old section stay in the archive, between
    the new section and the bytes that followed the old one. *)
Theorem update_binary_cuts_at_the_new_length :
  let full := archive_index_last "old" in
  let long := archive_index_last "old-bucket-long" in
  unpack_header (stream_read CLIP_ARCHIVE_HEADER_SIZE full)
  = Ok (header_index_last "old") /\
  spec_splice full (packed (new_header (header_index_last "old")))
    54 (Z.of_nat (length (section "old"))) (section "old-bkt")
  = packed (new_header (header_index_last "old"))
    ++ section "old-bkt" ++ [xff] ++ index /\
  uploaded full
  = Some (packed (new_header (header_index_last "old")) ++ section "old-bkt") /\
  spec_splice long (packed (new_header (header_index_last "old-bucket-long")))
    54 (Z.of_nat (length (section "old-bucket-long"))) (section "old-bkt")
  = packed (new_header (header_index_last "old-bucket-long"))
    ++ section "old-bkt" ++ [xff] ++ index /\
  uploaded long
  = Some (packed (new_header (header_index_last "old-bucket-long"))
          ++ section "old-bkt"
          ++ drop 339 (section "old-bucket-long") ++ [xff] ++ index) /\
  uploaded full
  <> Some (spec_splice full (packed (new_header (header_index_last "old")))
             54 (Z.of_nat (length (section "old"))) (section "old-bkt")).
Proof.
  repeat split; try (vm_compute; reflexivity).
  intros E. apply (f_equal (fmap length)) in E. vm_compute in E. discriminate.
Qed.

(** C3 (counterexample).  In this archive the index starts one byte
    after the end of the descriptor section, and the migration makes
    the section 16 bytes longer.  The header of the uploaded archive
    has the old [index_pos], not [index_pos + 16]. *)
Lemma index_pos_is_not_shifted :
  let full := archive_index_last "old" in
  let h := header_index_last "old" in
  let delta := Z.of_nat (length (section "old-bkt")) - storage_info_length h in
  unpack_header (stream_read CLIP_ARCHIVE_HEADER_SIZE full) = Ok h /\
  storage_info_pos h + storage_info_length h < index_pos h /\
  delta = 16 /\
  fst (run full) = Ok tt /\
  unpack_header ∘ stream_read CLIP_ARCHIVE_HEADER_SIZE <$> uploaded full
  = Some (Ok (new_header h)) /\
  index_pos (new_header h) = index_pos h /\
  index_pos (new_header h) <> index_pos h + delta.
Proof. repeat split; try (vm_compute; reflexivity); vm_compute; discriminate. Qed.

(** C10 (counterexample).  The descriptor section is the last one of
    this archive of 381 bytes; [migrate] calls [update_binary] with the
    new section of 339 bytes and a header of that length; the result,
    which is what the migration uploads, has 397 bytes. *)
Lemma update_binary_changes_the_length :
  let full := archive_section_last "old" in
  let header := new_header (header_section_last "old") in
  storage_info_length header = Z.of_nat (length (section "old-bkt")) /\
  unpack_header (stream_read CLIP_ARCHIVE_HEADER_SIZE full)
  = Ok (header_section_last "old") /\
  Ok <$> uploaded full = Some (update_binary full header (section "old-bkt")) /\
  length full = 381%nat /\
  length <$> uploaded full = Some 397%nat /\
  length <$> uploaded full <> Some (length full).
Proof. repeat split; try (vm_compute; reflexivity); vm_compute; discriminate. Qed.

(** *** The theorems above at the scenario *)

Lemma migrate_keeps_index_pos_witness :
  exists m h',
    objects (world (archive_index_last "old"))
      !! source_object migrator image_key = Some (m_full_data m) /\
    migrated migrator m /\
    uploaded (archive_index_last "old") = Some (m_updated_data m) /\
    unpack_header (stream_read CLIP_ARCHIVE_HEADER_SIZE (m_updated_data m))
    = Ok h' /\
    index_pos h' = index_pos (m_header m) /\
    index_length h' = index_length (m_header m) /\
    storage_info_pos h' = storage_info_pos (m_header m).
Proof.
  apply (migrate_keeps_index_pos migrator image_key
           (world (archive_index_last "old"))).
  vm_compute. reflexivity.
Defined.

Lemma migrate_preserves_Key_witness :
  exists m new_s3_info_data updated_header,
    objects (world (archive_section_last "old"))
      !! source_object migrator image_key = Some (m_full_data m) /\
    migrated migrator m /\
    attr_Key (m_s3_info m) = Ok (Key (m_new_s3_info m)) /\
    pygob_dump_S3StorageInfo (m_new_s3_info m) = Ok new_s3_info_data /\
    pygob_dump_StorageInfoWrapper
      {| Type_ := bytes_lit "s3"; Data := new_s3_info_data |}
    = Ok (m_new_wrapper_data m) /\
    update_binary (m_full_data m)
      (set_storage_info_length (m_header m)
         (Z.of_nat (length (m_new_wrapper_data m))))
      (m_new_wrapper_data m)
    = Ok (m_updated_data m) /\
    uploaded (archive_section_last "old") = Some (m_updated_data m) /\
    length updated_header = 54%nat /\
    m_updated_data m
    = updated_header
      ++ py_slice (m_full_data m) 54 (storage_info_pos (m_header m))
      ++ m_new_wrapper_data m
      ++ py_slice_from (m_full_data m)
           (storage_info_pos (m_header m)
            + Z.of_nat (length (m_new_wrapper_data m))) /\
    (CLIP_ARCHIVE_HEADER_SIZE <= storage_info_pos (m_header m)
       <= Z.of_nat (length (m_full_data m)) ->
     py_slice (m_updated_data m) (storage_info_pos (m_header m))
       (storage_info_pos (m_header m)
        + Z.of_nat (length (m_new_wrapper_data m)))
     = m_new_wrapper_data m) /\
    (round_trips ->
     exists wrapper s3_info,
       pygob_load (m_new_wrapper_data m) = Ok wrapper /\
       attr_Data wrapper = Ok new_s3_info_data /\
       pygob_load new_s3_info_data = Ok s3_info /\
       attr_Key s3_info = attr_Key (m_s3_info m)).
Proof.
  apply (migrate_preserves_Key migrator image_key
           (world (archive_section_last "old"))).
  vm_compute. reflexivity.
Defined.

Lemma migrate_sets_storage_info_length_witness :
  exists m h',
    objects (world (archive_section_last "old"))
      !! source_object migrator image_key = Some (m_full_data m) /\
    migrated migrator m /\
    uploaded (archive_section_last "old") = Some (m_updated_data m) /\
    unpack_header (stream_read CLIP_ARCHIVE_HEADER_SIZE (m_updated_data m))
    = Ok h' /\
    storage_info_length h' = Z.of_nat (length (m_new_wrapper_data m)).
Proof.
  apply (migrate_sets_storage_info_length migrator image_key
           (world (archive_section_last "old"))).
  vm_compute. reflexivity.
Defined.

Lemma migrate_rejects_unknown_tag_witness :
  exists e,
    fst (run archive_unknown_tag) = Raise e /\
    is_ValueError e = true /\
    (forall tag,
       bytes_decode_utf8
         (bytes_strip x00 (storage_info_type header_unknown_tag)) = Ok tag ->
       e = ValueError_unknown_type (storage_info_type header_unknown_tag)) /\
    objects (snd (run archive_unknown_tag))
    = objects (world archive_unknown_tag) /\
    puts (requests (snd (run archive_unknown_tag)))
    = puts (requests (world archive_unknown_tag)).
Proof.
  apply (migrate_rejects_unknown_tag migrator image_key
           (world archive_unknown_tag) archive_unknown_tag header_unknown_tag).
  - vm_compute. reflexivity.
  - vm_compute. reflexivity.
  - vm_compute. discriminate.
Defined.

Lemma get_header_short_input_witness :
  struct_unpack (stream_read CLIP_ARCHIVE_HEADER_SIZE truncated)
  = Raise StructError /\
  fst (get_header migrator image_key (world truncated))
  = Raise (UnboundLocalError (str_lit "unpacked_data")).
Proof.
  apply (get_header_short_input migrator image_key (world truncated) truncated).
  - vm_compute. reflexivity.
  - vm_compute. lia.
Defined.

Lemma migrate_deterministic_witness :
  exists r evs,
    migrate migrator image_key (world (archive_section_last "old"))
    = (r, replay evs (world (archive_section_last "old"))) /\
    migrate migrator image_key (other_world (archive_section_last "old"))
    = (r, replay evs (other_world (archive_section_last "old"))).
Proof.
  apply (migrate_deterministic migrator image_key).
  vm_compute. reflexivity.
Defined.

Lemma update_binary_same_length_witness :
  let full := archive_index_last "old-bucket-long" in
  let header := new_header (header_index_last "old-bucket-long") in
  length (packed header ++ section "old-bkt"
          ++ drop 339 (section "old-bucket-long") ++ [xff] ++ index)
  = length full.
Proof.
  apply (update_binary_same_length (archive_index_last "old-bucket-long")
           (new_header (header_index_last "old-bucket-long"))
           (section "old-bkt")).
  - vm_compute. reflexivity.
  - vm_compute. discriminate.
  - vm_compute. discriminate.
  - vm_compute. reflexivity.
Defined.

Lemma codecs_round_trip_witness :
  (exists l, pack_header (header_section_last "old") = Ok l /\
             length l = 54%nat /\
             unpack_header l = Ok (header_section_last "old")) /\
  TaggedValue.decode_descriptor
    (TaggedValue.encode_descriptor (descriptor "old"))
  = Ok (descriptor "old").
Proof.
  apply (codecs_round_trip (header_section_last "old") (descriptor "old")).
  constructor; vm_compute; repeat split; first [reflexivity | discriminate].
Defined.

End ScenarioFacts.

(** ** More on the header codec *)

Lemma byte_of_Z_add_mul (z k : Z) : byte_of_Z (z + k * 256) = byte_of_Z z.
Proof. unfold byte_of_Z. now rewrite Z_mod_plus_full. Qed.

Lemma le_bytes_add_mul (n : nat) (z k : Z) :
  le_bytes n (z + k * 256 ^ Z.of_nat n) = le_bytes n z.
Proof.
  revert z k. induction n as [|n IH]; intros z k; [reflexivity|].
  cbn [le_bytes]. rewrite Nat2Z.inj_succ, Z.pow_succ_r by lia.
  replace (z + k * (256 * 256 ^ Z.of_nat n))
    with (z + (k * 256 ^ Z.of_nat n) * 256) by lia.
  rewrite byte_of_Z_add_mul, Z.div_add by lia. now rewrite IH.
Qed.

Lemma unpack_q_range (l : bytes) :
  length l = 8%nat -> - 2 ^ 63 <= unpack_q l < 2 ^ 63.
Proof.
  intros Hl. unfold unpack_q. pose proof (le_unsigned_range l) as Hr.
  rewrite Hl in Hr. change (256 ^ Z.of_nat 8) with (2 ^ 64) in Hr.
  destruct (Z.ltb_spec (le_unsigned l) (2 ^ 63)); lia.
Qed.

Lemma le_bytes_unpack_q (l : bytes) :
  length l = 8%nat -> le_bytes 8 (unpack_q l) = l.
Proof.
  intros Hl. unfold unpack_q.
  destruct (Z.ltb_spec (le_unsigned l) (2 ^ 63)).
  - rewrite <- Hl. apply le_bytes_le_unsigned.
  - replace (le_unsigned l - 2 ^ 64)
      with (le_unsigned l + (-1) * 256 ^ Z.of_nat 8) by reflexivity.
    rewrite le_bytes_add_mul, <- Hl. apply le_bytes_le_unsigned.
Qed.

Lemma unpack_header_Ok_inv (data : bytes) (h : ClipArchiveHeader) :
  unpack_header data = Ok h ->
  length data = 54%nat /\
  h = mkHeader (take 9 data) (le_unsigned (take 1 (drop 9 data)))
        (unpack_q (take 8 (drop 10 data))) (unpack_q (take 8 (drop 18 data)))
        (unpack_q (take 8 (drop 26 data))) (unpack_q (take 8 (drop 34 data)))
        (take 12 (drop 42 data)).
Proof.
  unfold unpack_header, struct_unpack, mbind, result_mbind, result_bind.
  destruct (decide _) as [Hl|]; [|discriminate]. now intros [= <-].
Qed.

(** Whatever 54 bytes are decoded, the header has fields of the
    widths of the format. *)
Lemma unpack_header_valid (data : bytes) (h : ClipArchiveHeader) :
  unpack_header data = Ok h -> valid_header h.
Proof.
  intros Hu. apply unpack_header_Ok_inv in Hu as [Hl ->].
  constructor; cbn [start_bytes clip_file_format_version index_length index_pos
    storage_info_length storage_info_pos storage_info_type].
  - rewrite length_take. lia.
  - pose proof (le_unsigned_range (take 1 (drop 9 data))) as Hr.
    rewrite length_take, length_drop, Hl in Hr.
    change (256 ^ Z.of_nat (1 `min` (54 - 9))) with 256 in Hr. lia.
  - apply unpack_q_range. rewrite length_take, length_drop. lia.
  - apply unpack_q_range. rewrite length_take, length_drop. lia.
  - apply unpack_q_range. rewrite length_take, length_drop. lia.
  - apply unpack_q_range. rewrite length_take, length_drop. lia.
  - rewrite length_take, length_drop. lia.
Qed.

Lemma take_drop_split {A} (l : list A) (n k : nat) :
  drop n l = take k (drop n l) ++ drop (n + k) l.
Proof. now rewrite <- drop_drop, take_drop. Qed.

(** X1.  Packing a decoded header gives back the 54 bytes it was
    decoded from: [struct.pack] undoes [struct.unpack] on this format. *)
Theorem pack_header_unpack_header (data : bytes) (h : ClipArchiveHeader) :
  unpack_header data = Ok h -> pack_header h = Ok data.
Proof.
  intros Hu. pose proof (unpack_header_valid _ _ Hu) as Hv.
  rewrite (pack_header_Ok h Hv).
  apply unpack_header_Ok_inv in Hu as [Hl ->].
  cbn [start_bytes clip_file_format_version index_length index_pos
    storage_info_length storage_info_pos storage_info_type].
  rewrite !le_bytes_unpack_q by (rewrite length_take, length_drop; lia).
  assert (Hb : [byte_of_Z (le_unsigned (take 1 (drop 9 data)))]
               = take 1 (drop 9 data)).
  { destruct (drop 9 data) as [|b r] eqn:E.
    - apply (f_equal length) in E. rewrite length_drop in E. simpl in E. lia.
    - cbn. rewrite Z.mul_0_r, Z.add_0_r. now rewrite byte_of_to_Z. }
  rewrite Hb. f_equal. symmetry.
  etransitivity; [symmetry; apply (take_drop 9)|]. f_equal.
  etransitivity; [apply (take_drop_split _ 9 1)|]. f_equal.
  etransitivity; [apply (take_drop_split _ 10 8)|]. f_equal.
  etransitivity; [apply (take_drop_split _ 18 8)|]. f_equal.
  etransitivity; [apply (take_drop_split _ 26 8)|]. f_equal.
  etransitivity; [apply (take_drop_split _ 34 8)|]. f_equal.
  symmetry. apply take_ge. rewrite length_drop. lia.
Qed.


(** ** What [migrate] reads and writes *)

Lemma foldr_write_quiet (evs : list s3_request)
    (o : gmap (str * str * str) bytes) :
  puts evs = [] -> foldr write o evs = o.
Proof.
  unfold puts. induction evs as [|r evs IH]; [reflexivity|].
  destruct r as [e b k rg|e b k body|e b k body];
    cbn [filter is_put foldr write].
  - exact IH.
  - discriminate.
  - discriminate.
Qed.

Lemma puts_nil_objects (evs : list s3_request) (s : S3) :
  puts evs = [] -> objects (replay evs s) = objects s.
Proof. apply foldr_write_quiet. Qed.

Lemma puts_app (l1 l2 : list s3_request) : puts (l1 ++ l2) = puts l1 ++ puts l2.
Proof. apply filter_app. Qed.

Lemma quiet_ret {A} (a : A) : quiet (mret a).
Proof. intros s. exists []. now rewrite replay_nil. Qed.

Lemma quiet_lift {A} (r : result A) : quiet (lift r).
Proof. intros s. exists []. now rewrite replay_nil. Qed.

Lemma quiet_raise {A} (e : exn) : quiet (raise e : M A).
Proof. intros s. exists []. now rewrite replay_nil. Qed.

Lemma quiet_bind {A B} (m : M A) (f : A -> M B) :
  quiet m -> (forall a, quiet (f a)) -> quiet (m ≫= f).
Proof.
  intros Hm Hf s. destruct (Hm s) as (evs & E & Hp).
  unfold mbind, M_bind. destruct (m s) as [[a|e] s1]; cbn [snd] in E; subst s1.
  - destruct (Hf a (replay evs s)) as (evs' & E' & Hp').
    exists (evs' ++ evs). rewrite E', replay_app, puts_app, Hp, Hp'. now split.
  - now exists evs.
Qed.

Lemma quiet_get_object `{Libraries} client Bucket_ Key_ Range :
  quiet (get_object client Bucket_ Key_ Range).
Proof.
  intros s. exists [GetObject (endpoint client) Bucket_ Key_ Range].
  split; [|reflexivity]. unfold get_object.
  destruct (objects s !! _); [destruct Range as [[a b]|]|]; reflexivity.
Qed.

Section WritesLast.
Context `{Libraries}.
Variable k : str * str * str.

Lemma writes_last_raise (e : exn) : writes_last k (raise e).
Proof. intros s. left. exists e, []. now rewrite replay_nil. Qed.

Lemma writes_last_bind {A} (m : M A) (f : A -> M unit) :
  quiet m -> (forall a, writes_last k (f a)) -> writes_last k (m ≫= f).
Proof.
  intros Hm Hf s. destruct (Hm s) as (evs & E & Hp).
  unfold mbind, M_bind. destruct (m s) as [[a|e] s1]; cbn [snd] in E; subst s1.
  - destruct (Hf a (replay evs s))
      as [(e & evs' & E' & Hp')
         |[(evs' & body & code & Hr & E' & Hp')|(evs' & body & E' & Hp')]].
    + left. exists e, (evs' ++ evs).
      rewrite E', replay_app, puts_app, Hp, Hp'. now split.
    + right. left. exists (evs' ++ evs), body, code.
      rewrite E', puts_app, Hp, Hp'. split; [exact Hr|]. split; [|reflexivity].
      f_equal. symmetry. apply (replay_app (_ :: evs') evs).
    + right. right. exists (evs' ++ evs), body.
      rewrite E', puts_app, Hp, Hp'. split; [|reflexivity].
      f_equal. symmetry. apply (replay_app (_ :: evs') evs).
  - left. now exists e, evs.
Qed.

End WritesLast.

Section Effects.
Context `{Libraries}.
Variable self : ImageMigrator.

Lemma writes_last_put_object client Bucket_ Key_ Body :
  writes_last (endpoint client, Bucket_, Key_)
    (put_object client Bucket_ Key_ Body).
Proof.
  intros s. unfold put_object. cbn [fst snd].
  destruct (put_refusal _ _ _ _) as [code|] eqn:Hr.
  - right. left. exists [], Body, code. now split.
  - right. right. exists [], Body. now split.
Qed.

Lemma quiet_get_header image_key : quiet (get_header self image_key).
Proof.
  unfold get_header. apply quiet_bind; [apply quiet_get_object|]. intros response.
  apply quiet_bind; [apply quiet_lift|].
  intros [[[[[[[u0 u1] u2] u3] u4] u5] u6]|]; [apply quiet_ret|apply quiet_raise].
Qed.

Lemma writes_last_migrate image_key :
  writes_last (target_object self image_key) (migrate self image_key).
Proof.
  unfold migrate, get_s3_storage_info, download_full_archive,
    upload_to_target_bucket.
  apply writes_last_bind; [apply quiet_get_header|]. intros header.
  apply writes_last_bind; [apply quiet_lift|]. intros tag.
  destruct (negb _); [apply writes_last_raise|].
  repeat (apply writes_last_bind;
          [repeat first [apply quiet_lift | apply quiet_ret
                        | apply quiet_get_object
                        | apply quiet_bind; [|intros ?]]
          |intros ?]).
  apply writes_last_put_object.
Qed.

(** X3.  [get_header] returns a header exactly when the source object
    exists and has at least 54 bytes; the header is then the decoding
    of its first 54 bytes, whatever follows them. *)
Theorem get_header_Ok_iff image_key s h :
  fst (get_header self image_key s) = Ok h <->
  exists full,
    objects s !! source_object self image_key = Some full /\
    (54 <= length full)%nat /\
    unpack_header (take 54 full) = Ok h.
Proof.
  split.
  - destruct (get_header self image_key s) as [r s'] eqn:E. cbn [fst].
    intros ->. apply get_header_Ok in E as (full & Hfull & Hunp & _).
    exists full. split; [exact Hfull|].
    change (stream_read CLIP_ARCHIVE_HEADER_SIZE full) with (take 54 full) in Hunp.
    split; [|exact Hunp].
    apply unpack_header_Ok_inv in Hunp as [Hl _]. rewrite length_take in Hl. lia.
  - intros (full & Hfull & _ & Hunp).
    now rewrite (get_header_run self image_key s full h Hfull Hunp).
Qed.

(** X4.  A header returned by [get_header] has fields of the widths of
    the format, so that [update_binary] can pack it again: the only
    field [migrate] changes before packing is [storage_info_length]. *)
Theorem get_header_returns_valid_header image_key s h :
  fst (get_header self image_key s) = Ok h -> valid_header h.
Proof.
  destruct (get_header self image_key s) as [r s'] eqn:E. cbn [fst].
  intros ->. apply get_header_Ok in E as (full & _ & Hunp & _).
  exact (unpack_header_valid _ _ Hunp).
Qed.

(** X6.  A migration that fails has written nothing: every object of
    every store is as before.  Either the run made no [put_object]
    request at all, or its last request was the one [put_object], of
    the target object, which the store refused, and the error raised is
    that refusal. *)
Theorem migrate_failure_writes_nothing image_key s e :
  fst (migrate self image_key s) = Raise e ->
  objects (snd (migrate self image_key s)) = objects s /\
  (puts (requests (snd (migrate self image_key s))) = puts (requests s) \/
   exists body code evs,
     e = ClientError code /\
     put_refusal (endpoint (target_bucket self)) (bucket (target_bucket self))
       image_key body = Some code /\
     requests (snd (migrate self image_key s))
     = PutObjectRefused (endpoint (target_bucket self))
         (bucket (target_bucket self)) image_key body
       :: evs ++ requests s /\
     puts evs = []).
Proof.
  destruct (writes_last_migrate image_key s)
    as [(e' & evs & E & Hp)
       |[(evs & body & code & Hr & E & Hp)|(evs & body & E & Hp)]];
    rewrite E; cbn [fst snd].
  - intros _. split; [now apply puts_nil_objects|]. left.
    unfold replay. cbn [requests]. now rewrite puts_app, Hp.
  - intros [= <-]. split.
    + unfold replay. cbn [objects foldr write]. now apply foldr_write_quiet.
    + right. exists body, code, evs. repeat split; auto.
  - discriminate.
Qed.

(** X7.  Whatever the outcome, [migrate] changes no object other than
    the target object: the source archive itself is read-only unless
    source and target name the same object. *)
Theorem migrate_touches_only_target image_key s k :
  k <> target_object self image_key ->
  objects (snd (migrate self image_key s)) !! k = objects s !! k.
Proof.
  intros Hk.
  destruct (writes_last_migrate image_key s)
    as [(e' & evs & E & Hp)
       |[(evs & body & code & Hr & E & Hp)|(evs & body & E & Hp)]];
    rewrite E; cbn [fst snd].
  - now rewrite puts_nil_objects.
  - unfold replay at 1. cbn [objects foldr write].
    now rewrite (foldr_write_quiet _ _ Hp).
  - unfold replay at 1. cbn [objects foldr write].
    rewrite (foldr_write_quiet _ _ Hp). apply lookup_insert_ne.
    intros <-. apply Hk. reflexivity.
Qed.

(** X8.  A successful migration makes exactly four requests: a GET of
    the source object for the header, a ranged GET of the descriptor
    section, a GET of the whole object, and one PUT of the rewritten
    archive under the same key in the target bucket. *)
Theorem migrate_requests image_key s :
  fst (migrate self image_key s) = Ok tt ->
  exists h body,
    fst (get_header self image_key s) = Ok h /\
    requests (snd (migrate self image_key s))
    = [ PutObject (endpoint (target_bucket self)) (bucket (target_bucket self))
          image_key body;
        GetObject (endpoint (source_bucket self)) (bucket (source_bucket self))
          image_key None;
        GetObject (endpoint (source_bucket self)) (bucket (source_bucket self))
          image_key
          (Some (storage_info_pos h,
                 storage_info_pos h + storage_info_length h - 1));
        GetObject (endpoint (source_bucket self)) (bucket (source_bucket self))
          image_key None ] ++ requests s.
Proof.
  intros Hok. apply migrate_Ok_run in Hok as (m & Hfull & Hm & _ & Hreq).
  exists (m_header m), (m_updated_data m). split; [|exact Hreq].
  now rewrite (get_header_run self image_key s _ _ Hfull (mig_header _ _ Hm)).
Qed.

(** X9.  The header at the front of the uploaded archive is the
    header decoded from the source archive with [storage_info_length]
    replaced by the length of the new wrapper: magic, version, index
    fields, descriptor position and type tag are copied through. *)
Theorem migrate_uploaded_header image_key s :
  fst (migrate self image_key s) = Ok tt ->
  exists m,
    objects s !! source_object self image_key = Some (m_full_data m) /\
    migrated self m /\
    objects (snd (migrate self image_key s)) !! target_object self image_key
    = Some (m_updated_data m) /\
    unpack_header (take 54 (m_updated_data m))
    = Ok (set_storage_info_length (m_header m)
            (Z.of_nat (length (m_new_wrapper_data m)))).
Proof.
  intros Hok. apply migrate_Ok_run in Hok as (m & Hfull & Hm & Hobj & _).
  exists m. split; [exact Hfull|]. split; [exact Hm|]. split; [exact Hobj|].
  pose proof (update_binary_header _ _ _ _ (mig_updated_data _ _ Hm)) as Hh.
  change (stream_read CLIP_ARCHIVE_HEADER_SIZE (m_updated_data m))
    with (take 54 (m_updated_data m)) in Hh.
  rewrite Hh. destruct (unpack_header_valid _ _ (mig_header _ _ Hm)) as [H0 _ _ _ _ _ H6].
  cbn [start_bytes storage_info_type set_storage_info_length].
  now rewrite !pack_s_exact by assumption.
Qed.

End Effects.

(** ** The layout of the rewritten archive *)

(** X10.  With the header carrying the length of the new section, a
    section that starts at or after byte 54 and a new section that ends
    inside the input, [update_binary] overwrites in place: in Python
    terms [out[54:pos] == full[54:pos]], [out[pos:pos+n] == new] and
    [out[pos+n:] == full[pos+n:]], where [n] is the length of the NEW
    section. *)
Theorem update_binary_overwrites_in_place
    full_data header new_s3_info_data (out : bytes) :
  update_binary full_data header new_s3_info_data = Ok out ->
  storage_info_length header = Z.of_nat (length new_s3_info_data) ->
  CLIP_ARCHIVE_HEADER_SIZE <= storage_info_pos header ->
  storage_info_pos header + Z.of_nat (length new_s3_info_data)
    <= Z.of_nat (length full_data) ->
  py_slice out 54 (storage_info_pos header)
  = py_slice full_data 54 (storage_info_pos header) /\
  py_slice out (storage_info_pos header)
    (storage_info_pos header + storage_info_length header)
  = new_s3_info_data /\
  py_slice_from out (storage_info_pos header + storage_info_length header)
  = py_slice_from full_data
      (storage_info_pos header + storage_info_length header).
Proof.
  intros Hu Hlen Hpos Hend.
  assert (Hpos' : CLIP_ARCHIVE_HEADER_SIZE <= storage_info_pos header
                  <= Z.of_nat (length full_data)) by lia.
  split; [|split].
  - destruct (update_binary_layout _ _ _ _ Hu Hpos') as (hdr & _ & Hh & Ha & ->).
    apply py_slice_app_middle; lia.
  - rewrite Hlen. exact (update_binary_places_section _ _ _ _ Hu Hpos').
  - destruct (update_binary_layout _ _ _ _ Hu Hpos') as (hdr & _ & Hh & Ha & ->).
    rewrite (app_assoc hdr), (app_assoc (hdr ++ _)).
    apply py_slice_from_app_length.
    rewrite !length_app, !Nat2Z.inj_add. lia.
Qed.

(** X11.  No bound is checked.  When [storage_info_pos] lies beyond
    the end of the input, [update_binary] still returns an archive: the
    input after its header, then the new section appended at the end,
    so that a non-empty new section is NOT at the position the header
    gives. *)
Theorem update_binary_beyond_end
    full_data header new_s3_info_data (out : bytes) :
  update_binary full_data header new_s3_info_data = Ok out ->
  0 <= storage_info_length header ->
  54 <= Z.of_nat (length full_data) < storage_info_pos header ->
  (exists updated_header,
     pack_header header = Ok updated_header /\
     out = updated_header ++ drop 54 full_data ++ new_s3_info_data) /\
  (new_s3_info_data <> [] ->
   py_slice out (storage_info_pos header)
     (storage_info_pos header + Z.of_nat (length new_s3_info_data))
   <> new_s3_info_data).
Proof.
  intros Hu Hn Hpos.
  apply update_binary_Ok_inv in Hu as (hdr & Hp & ->).
  pose proof (length_struct_pack _ _ _ _ _ _ _ _ Hp) as Hh.
  assert (E1 : py_slice full_data CLIP_ARCHIVE_HEADER_SIZE
                 (storage_info_pos header) = drop 54 full_data).
  { unfold py_slice, slice_index, CLIP_ARCHIVE_HEADER_SIZE.
    destruct (Z.ltb_spec 54 0); [lia|].
    destruct (Z.ltb_spec (storage_info_pos header) 0); [lia|].
    rewrite (Z.min_l 54), (Z.min_r (storage_info_pos header)) by lia.
    change (Z.to_nat 54) with 54%nat.
    apply take_ge. rewrite length_drop. lia. }
  rewrite E1, py_slice_from_beyond by lia. rewrite app_nil_r.
  split; [now exists hdr|].
  intros Hne E. apply (f_equal length) in E. revert E.
  unfold py_slice, slice_index.
  destruct (Z.ltb_spec (storage_info_pos header) 0); [lia|].
  destruct (Z.ltb_spec (storage_info_pos header
                        + Z.of_nat (length new_s3_info_data)) 0); [lia|].
  rewrite length_take, length_drop, !length_app, length_drop, Hh.
  destruct new_s3_info_data as [|b r]; [contradiction|].
  cbn [length]. lia.
Qed.

(** X12.  [update_binary] as [migrate] calls it, with a header decoded
    by [get_header] and the length of a new section below 2^63, never
    fails, whatever the archive bytes and whatever position and length
    the header gives: there is no error for a section outside the
    archive. *)
Theorem update_binary_never_rejects
    (data full_data new_s3_info_data : bytes) (h : ClipArchiveHeader) :
  unpack_header data = Ok h ->
  Z.of_nat (length new_s3_info_data) < 2 ^ 63 ->
  exists out,
    update_binary full_data
      (set_storage_info_length h (Z.of_nat (length new_s3_info_data)))
      new_s3_info_data
    = Ok out.
Proof.
  intros Hu Hn. destruct (unpack_header_valid _ _ Hu) as [H0 H1 H2 H3 H4 H5 H6].
  assert (Hv : valid_header
                 (set_storage_info_length h
                    (Z.of_nat (length new_s3_info_data)))).
  { constructor; cbn; auto. lia. }
  pose proof (pack_header_Ok _ Hv) as Hp.
  unfold update_binary. unfold pack_header in Hp. rewrite Hp.
  eexists. reflexivity.
Qed.

(** ** The accepted type tags *)

Lemma bytes_lstrip_decomp (c : byte) (l : bytes) :
  exists a, l = replicate a c ++ bytes_lstrip c l.
Proof.
  induction l as [|b r [a IH]]; [now exists 0%nat|].
  cbn [bytes_lstrip]. destruct (Byte.eqb b c) eqn:E.
  - apply Byte.byte_dec_bl in E as ->. exists (S a). cbn. now rewrite <- IH.
  - now exists 0%nat.
Qed.

Lemma bytes_lstrip_replicate (c : byte) (a : nat) (l : bytes) :
  bytes_lstrip c (replicate a c ++ l) = bytes_lstrip c l.
Proof.
  induction a as [|a IH]; [reflexivity|].
  cbn. now rewrite (Byte.byte_dec_lb (eq_refl c)).
Qed.

Lemma rev_replicate (c : byte) (a : nat) : rev (replicate a c) = replicate a c.
Proof.
  induction a as [|a IH]; [reflexivity|].
  cbn [replicate rev]. rewrite IH.
  clear IH. induction a as [|a IH]; [reflexivity|]. cbn. now rewrite IH.
Qed.

Lemma bytes_rstrip_decomp (c : byte) (l : bytes) :
  exists b, l = bytes_rstrip c l ++ replicate b c.
Proof.
  unfold bytes_rstrip. destruct (bytes_lstrip_decomp c (rev l)) as [b Hb].
  exists b. rewrite <- (rev_involutive l) at 1. rewrite Hb at 1.
  now rewrite rev_app_distr, rev_replicate.
Qed.

(** X13.  The tag check of [migrate] strips NUL bytes at both ends:
    the stripped tag is [b"s3"] exactly for the tags made of [b"s3"]
    with any number of NUL bytes before and after it. *)
Theorem bytes_strip_s3_iff (l : bytes) :
  bytes_strip x00 l = bytes_lit "s3" <->
  exists a b, l = replicate a x00 ++ bytes_lit "s3" ++ replicate b x00.
Proof.
  unfold bytes_strip. split.
  - intros Hs. destruct (bytes_lstrip_decomp x00 l) as [a Ha].
    destruct (bytes_rstrip_decomp x00 (bytes_lstrip x00 l)) as [b Hb].
    exists a, b. rewrite Ha at 1. f_equal. rewrite Hb at 1. now rewrite Hs.
  - intros (a & b & ->). rewrite bytes_lstrip_replicate.
    change (bytes_lit "s3") with [x73; x33].
    unfold bytes_rstrip. cbn [app bytes_lstrip].
    change (Byte.eqb x73 x00) with false. cbn iota.
    change (x73 :: x33 :: replicate b x00)
      with ([x73; x33] ++ replicate b x00).
    rewrite rev_app_distr, rev_replicate, bytes_lstrip_replicate.
    reflexivity.
Qed.

(** ** Running [migrate] forward *)

Lemma bind_run {A B} (m : M A) (f : A -> M B) (s s1 : S3) (a : A) :
  m s = (Ok a, s1) -> (m ≫= f) s = f a s1.
Proof. unfold mbind, M_bind. now intros ->. Qed.

Lemma lift_run {A} (r : result A) (a : A) (s : S3) :
  r = Ok a -> lift r s = (Ok a, s).
Proof. now intros ->. Qed.

Section Forward.
Context `{Libraries}.
Variable self : ImageMigrator.

Lemma get_object_run image_key Range s full body :
  objects s !! source_object self image_key = Some full ->
  match Range with
  | None => Ok full
  | Some (first, last) => ranged_body full first last
  end = Ok body ->
  get_object (source_bucket self) (bucket (source_bucket self)) image_key
    Range s
  = (Ok body, logged (GetObject (endpoint (source_bucket self))
                        (bucket (source_bucket self)) image_key Range) s).
Proof.
  intros Hfull Hb. unfold get_object. unfold source_object in Hfull.
  rewrite Hfull. destruct Range as [[first last]|]; now rewrite Hb.
Qed.

(** The steps of a run, taken in order, make [migrate] succeed. *)
Lemma migrate_run image_key s m :
  objects s !! source_object self image_key = Some (m_full_data m) ->
  migrated self m ->
  (exists v, pygob_load (m_new_wrapper_data m) = Ok v) ->
  put_refusal (endpoint (target_bucket self)) (bucket (target_bucket self))
    image_key (m_updated_data m) = None ->
  migrate self image_key s
  = (Ok tt,
     {| objects := <[target_object self image_key := m_updated_data m]>
                     (objects s);
        requests := run_requests self image_key m ++ requests s |}).
Proof.
  intros Hfull Hm [v Hv] Hput.
  destruct Hm as [Hh Htag (body & wrapper & d & Hbody & Hw & Hd & Hi)
                  Hb Hr Hk He (nd & Hnd & Hnw) Hupd].
  unfold migrate.
  erewrite bind_run by (exact (get_header_run self image_key s _ _ Hfull Hh)).
  cbv beta. erewrite (bind_run _ _ _ _ (str_lit "s3"))
    by (apply lift_run; rewrite Htag; reflexivity).
  cbv beta. change (str_eqb (str_lit "s3") (str_lit "s3")) with true.
  cbn [negb]. cbv iota.
  erewrite bind_run.
  2:{ unfold get_s3_storage_info.
      erewrite bind_run
        by (apply (get_object_run image_key
                     (Some (storage_info_pos (m_header m),
                            storage_info_pos (m_header m)
                            + storage_info_length (m_header m) - 1))
                     _ (m_full_data m) body); [exact Hfull|exact Hbody]).
      cbv beta. erewrite bind_run by (apply lift_run; exact Hw).
      cbv beta. erewrite bind_run by (apply lift_run; exact Hd).
      cbv beta. erewrite bind_run by (apply lift_run; exact Hi).
      reflexivity. }
  cbv beta. erewrite bind_run by (apply lift_run; exact Hb).
  cbv beta. erewrite bind_run by (apply lift_run; exact Hr).
  cbv beta. erewrite bind_run by (apply lift_run; exact Hk).
  cbv beta. erewrite bind_run by (apply lift_run; exact He).
  destruct (m_new_s3_info m) as [b r k e]; cbn [Bucket Region Key Endpoint] in *.
  cbv beta. erewrite bind_run by (apply lift_run; exact Hnd).
  cbv beta. erewrite bind_run by (apply lift_run; exact Hnw).
  cbv beta. erewrite bind_run by (apply lift_run; exact Hv).
  cbv beta. erewrite bind_run.
  2:{ unfold download_full_archive.
      erewrite bind_run
        by (apply (get_object_run image_key None _ (m_full_data m));
            [exact Hfull|reflexivity]).
      reflexivity. }
  cbv beta zeta. erewrite bind_run by (apply lift_run; exact Hupd).
  unfold upload_to_target_bucket, put_object. now rewrite Hput.
Qed.

(** The header at the front of what a run uploads. *)
Lemma uploaded_header (m : migration) :
  migrated self m ->
  unpack_header (take 54 (m_updated_data m))
  = Ok (set_storage_info_length (m_header m)
          (Z.of_nat (length (m_new_wrapper_data m)))).
Proof.
  intros Hm.
  pose proof (update_binary_header _ _ _ _ (mig_updated_data _ _ Hm)) as Hh.
  change (stream_read CLIP_ARCHIVE_HEADER_SIZE (m_updated_data m))
    with (take 54 (m_updated_data m)) in Hh.
  rewrite Hh.
  destruct (unpack_header_valid _ _ (mig_header _ _ Hm)) as [H0 _ _ _ _ _ H6].
  cbn [start_bytes storage_info_type set_storage_info_length].
  now rewrite !pack_s_exact by assumption.
Qed.

(** X14.  When the descriptor section of the source archive starts
    inside the archive, at or after byte 54, the section that the
    header of the uploaded archive locates is the newly encoded
    wrapper: a reader of the migrated archive finds the new descriptor. *)
Theorem migrate_section_located image_key s full h :
  objects s !! source_object self image_key = Some full ->
  unpack_header (take 54 full) = Ok h ->
  54 <= storage_info_pos h <= Z.of_nat (length full) ->
  fst (migrate self image_key s) = Ok tt ->
  exists m h',
    migrated self m /\
    objects (snd (migrate self image_key s)) !! target_object self image_key
    = Some (m_updated_data m) /\
    unpack_header (take 54 (m_updated_data m)) = Ok h' /\
    py_slice (m_updated_data m) (storage_info_pos h')
      (storage_info_pos h' + storage_info_length h')
    = m_new_wrapper_data m.
Proof.
  intros Hfull Hunp Hpos Hok.
  apply migrate_Ok_run in Hok as (m & Hfull' & Hm & Hobj & _).
  rewrite Hfull in Hfull'. injection Hfull' as ->.
  pose proof (mig_header _ _ Hm) as Hh.
  change (stream_read CLIP_ARCHIVE_HEADER_SIZE (m_full_data m))
    with (take 54 (m_full_data m)) in Hh.
  rewrite Hunp in Hh. injection Hh as ->.
  eexists m, _. split; [exact Hm|]. split; [exact Hobj|].
  split; [exact (uploaded_header m Hm)|].
  cbn [storage_info_pos storage_info_length set_storage_info_length].
  exact (update_binary_places_section _ _ _ _ (mig_updated_data _ _ Hm) Hpos).
Qed.

(** X15.  With libraries that give back what they stored, migrating
    the archive that a migration uploaded uploads the same archive
    again: when the descriptor section of the first source starts inside
    it, at or after byte 54, and the new wrapper is not empty, a run on
    any state that holds the uploaded archive under the source key
    succeeds and uploads it unchanged. *)
Theorem migrate_again_uploads_the_same image_key s s2 full h u h' :
  round_trips ->
  objects s !! source_object self image_key = Some full ->
  unpack_header (take 54 full) = Ok h ->
  54 <= storage_info_pos h <= Z.of_nat (length full) ->
  fst (migrate self image_key s) = Ok tt ->
  objects (snd (migrate self image_key s)) !! target_object self image_key
  = Some u ->
  unpack_header (take 54 u) = Ok h' ->
  0 < storage_info_length h' ->
  objects s2 !! source_object self image_key = Some u ->
  fst (migrate self image_key s2) = Ok tt /\
  objects (snd (migrate self image_key s2)) !! target_object self image_key
  = Some u.
Proof.
  intros [Hrange Hwrap Hinfo] Hfull Hunp Hpos Hok Hobj Hu' Hlen Hs2.
  destruct (migrate self image_key s) as [r s'] eqn:E.
  cbn [fst snd] in Hok, Hobj. subst r.
  apply migrate_Ok_inv in E as (m & Hfull' & Hm & Hobj' & _ & Hput).
  rewrite Hfull in Hfull'. injection Hfull' as ->.
  rewrite Hobj', lookup_insert_eq in Hobj. injection Hobj as <-.
  pose proof (mig_header _ _ Hm) as Hh.
  change (stream_read CLIP_ARCHIVE_HEADER_SIZE (m_full_data m))
    with (take 54 (m_full_data m)) in Hh.
  rewrite Hunp in Hh. injection Hh as Hh.
  rewrite (uploaded_header m Hm) in Hu'. injection Hu' as <-.
  cbn [storage_info_length set_storage_info_length] in Hlen.
  rewrite Hh in Hpos.
  destruct (mig_new_wrapper_data _ _ Hm) as (nd & Hnd & Hnw).
  destruct (Hwrap _ _ Hnw) as (v & Hv & HvD). cbn [Data] in HvD.
  destruct (Hinfo _ _ Hnd) as (v' & Hv' & HvK).
  set (n := Z.of_nat (length (m_new_wrapper_data m))) in *.
  set (hn := set_storage_info_length (m_header m) n).
  pose proof (mig_updated_data _ _ Hm) as Hupd. fold n hn in Hupd.
  assert (Hpos' : CLIP_ARCHIVE_HEADER_SIZE <= storage_info_pos hn
                  <= Z.of_nat (length (m_full_data m))) by exact Hpos.
  pose proof (update_binary_places_section _ _ _ _ Hupd Hpos') as Hsec.
  destruct (update_binary_layout _ _ _ _ Hupd Hpos') as (hdr & Hp & Hl & Ha & Eu).
  cbn [storage_info_pos storage_info_length set_storage_info_length hn]
    in Hsec, Ha, Eu. fold n in Hsec.
  assert (Hulen : storage_info_pos (m_header m) + n
                  <= Z.of_nat (length (m_updated_data m))).
  { rewrite Eu, !length_app, !Nat2Z.inj_add. unfold n. lia. }
  set (m2 := mkMigration (m_updated_data m) hn v' (m_new_s3_info m)
               (m_new_wrapper_data m) (m_updated_data m)).
  assert (Hm2 : migrated self m2).
  { constructor; cbn [m2 m_full_data m_header m_s3_info m_new_s3_info
      m_new_wrapper_data m_updated_data].
    - exact (uploaded_header m Hm).
    - exact (mig_tag _ _ Hm).
    - exists (m_new_wrapper_data m), v, nd.
      cbn [storage_info_pos storage_info_length set_storage_info_length hn].
      split.
      { rewrite Hrange by lia.
        replace (storage_info_pos (m_header m) + n - 1 + 1)
          with (storage_info_pos (m_header m) + n) by lia.
        now rewrite Hsec. }
      split; [|now split].
      unfold stream_read. destruct (Z.ltb_spec n 0); [exact Hv|].
      unfold n. rewrite Nat2Z.id, firstn_all. exact Hv.
    - exact (mig_Bucket _ _ Hm).
    - exact (mig_Region _ _ Hm).
    - exact HvK.
    - exact (mig_Endpoint _ _ Hm).
    - now exists nd.
    - fold n. replace (set_storage_info_length hn n) with hn by reflexivity.
      unfold update_binary. unfold pack_header in Hp. rewrite Hp.
      cbn [mbind result_mbind result_bind].
      cbn [storage_info_pos storage_info_length set_storage_info_length hn].
      f_equal. rewrite Eu at 3. f_equal.
      rewrite Eu. f_equal.
      + apply py_slice_app_middle; [unfold CLIP_ARCHIVE_HEADER_SIZE; lia|].
        unfold CLIP_ARCHIVE_HEADER_SIZE. lia.
      + f_equal. rewrite (app_assoc hdr), (app_assoc (hdr ++ _)).
        apply py_slice_from_app_length.
        rewrite !length_app, !Nat2Z.inj_add. unfold n. lia. }
  rewrite (migrate_run image_key s2 m2 Hs2 Hm2 (ex_intro _ v Hv) Hput).
  cbn [fst snd objects m2 m_updated_data]. split; [reflexivity|].
  apply lookup_insert_eq.
Qed.

End Forward.

(** ** The further theorems at the scenario *)

Module ScenarioExtras.
Import Scenario.

Lemma take_take_min {A} (l : list A) (n : nat) :
  take n l = take (n `min` length l) l.
Proof.
  destruct (Nat.le_ge_cases n (length l)).
  - now rewrite Nat.min_l.
  - rewrite Nat.min_r by assumption. now rewrite firstn_all, take_ge.
Qed.

(** The reference libraries give back what they stored. *)
Lemma reference_round_trips : round_trips.
Proof.
  constructor.
  - intros obj first last Hf Hl.
    change (ranged_body obj first last) with (http_range_body obj first last).
    unfold http_range_body.
    destruct (Z.leb_spec 0 first); [|lia].
    destruct (Z.leb_spec first last); [|lia].
    destruct (Z.ltb_spec first (Z.of_nat (length obj))); [|lia].
    cbn [andb]. f_equal. unfold py_slice, slice_index.
    destruct (Z.ltb_spec first 0); [lia|].
    destruct (Z.ltb_spec (last + 1) 0); [lia|].
    rewrite (Z.min_l first) by lia.
    rewrite (take_take_min _ (Z.to_nat (last - first + 1))).
    rewrite (take_take_min _ (Z.to_nat (_ - first))).
    f_equal. rewrite length_drop. lia.
  - intros w l [= <-]. eexists. split.
    + apply TaggedValueFacts.decode_encode.
    + reflexivity.
  - intros d l [= <-]. eexists. split.
    + apply TaggedValueFacts.decode_encode.
    + reflexivity.
Qed.

Lemma pack_header_unpack_header_witness :
  pack_header (header_section_last "old")
  = Ok (take 54 (archive_section_last "old")).
Proof.
  apply (pack_header_unpack_header (take 54 (archive_section_last "old"))
           (header_section_last "old")).
  vm_compute. reflexivity.
Defined.

Lemma get_header_returns_valid_header_witness :
  valid_header (header_section_last "old").
Proof.
  apply (get_header_returns_valid_header migrator image_key
           (world (archive_section_last "old"))).
  vm_compute. reflexivity.
Defined.

Lemma migrate_failure_writes_nothing_witness :
  let s := world (archive_section_last "old") in
  let r := @migrate source_only migrator image_key s in
  objects (snd r) = objects s /\
  (puts (requests (snd r)) = puts (requests s) \/
   exists body code evs,
     ClientError (str_lit "NoSuchBucket") = ClientError code /\
     @put_refusal source_only (endpoint target) (bucket target) image_key body
     = Some code /\
     requests (snd r)
     = PutObjectRefused (endpoint target) (bucket target) image_key body
         :: evs ++ requests s /\
     puts evs = []).
Proof.
  apply (@migrate_failure_writes_nothing source_only migrator image_key
           (world (archive_section_last "old"))
           (ClientError (str_lit "NoSuchBucket"))).
  vm_compute. reflexivity.
Defined.

Lemma migrate_touches_only_target_witness :
  objects (snd (run (archive_section_last "old")))
    !! source_object migrator image_key
  = objects (world (archive_section_last "old"))
    !! source_object migrator image_key.
Proof.
  apply (migrate_touches_only_target migrator image_key
           (world (archive_section_last "old"))).
  vm_compute. discriminate.
Defined.

Lemma migrate_requests_witness :
  exists h body,
    fst (get_header migrator image_key (world (archive_section_last "old")))
    = Ok h /\
    requests (snd (run (archive_section_last "old")))
    = [ PutObject (endpoint target) (bucket target) image_key body;
        GetObject (endpoint source) (bucket source) image_key None;
        GetObject (endpoint source) (bucket source) image_key
          (Some (storage_info_pos h,
                 storage_info_pos h + storage_info_length h - 1));
        GetObject (endpoint source) (bucket source) image_key None ]
      ++ requests (world (archive_section_last "old")).
Proof.
  apply (migrate_requests migrator image_key
           (world (archive_section_last "old"))).
  vm_compute. reflexivity.
Defined.

Lemma migrate_uploaded_header_witness :
  exists m,
    objects (world (archive_section_last "old"))
      !! source_object migrator image_key = Some (m_full_data m) /\
    migrated migrator m /\
    uploaded (archive_section_last "old") = Some (m_updated_data m) /\
    unpack_header (take 54 (m_updated_data m))
    = Ok (set_storage_info_length (m_header m)
            (Z.of_nat (length (m_new_wrapper_data m)))).
Proof.
  apply (migrate_uploaded_header migrator image_key
           (world (archive_section_last "old"))).
  vm_compute. reflexivity.
Defined.

Lemma update_binary_overwrites_in_place_witness :
  let full := archive_index_last "old-bucket-long" in
  let header := new_header (header_index_last "old-bucket-long") in
  let out := packed header ++ section "old-bkt"
             ++ drop 339 (section "old-bucket-long") ++ [xff] ++ index in
  py_slice out 54 (storage_info_pos header)
  = py_slice full 54 (storage_info_pos header) /\
  py_slice out (storage_info_pos header)
    (storage_info_pos header + storage_info_length header)
  = section "old-bkt" /\
  py_slice_from out (storage_info_pos header + storage_info_length header)
  = py_slice_from full (storage_info_pos header + storage_info_length header).
Proof.
  apply (update_binary_overwrites_in_place
           (archive_index_last "old-bucket-long")
           (new_header (header_index_last "old-bucket-long"))
           (section "old-bkt")).
  - vm_compute. reflexivity.
  - vm_compute. reflexivity.
  - vm_compute. discriminate.
  - vm_compute. discriminate.
Defined.

Lemma update_binary_beyond_end_witness :
  let header := new_header header_far in
  let out := packed header ++ index ++ section "old-bkt" in
  (exists updated_header,
     pack_header header = Ok updated_header /\
     out = updated_header ++ drop 54 archive_far ++ section "old-bkt") /\
  (section "old-bkt" <> [] ->
   py_slice out (storage_info_pos header)
     (storage_info_pos header + Z.of_nat (length (section "old-bkt")))
   <> section "old-bkt").
Proof.
  apply (update_binary_beyond_end archive_far (new_header header_far)
           (section "old-bkt")).
  - vm_compute. reflexivity.
  - vm_compute. discriminate.
  - vm_compute. split; [discriminate|reflexivity].
Defined.

Lemma update_binary_never_rejects_witness :
  exists out,
    update_binary archive_far
      (set_storage_info_length header_far
         (Z.of_nat (length (section "old-bkt"))))
      (section "old-bkt")
    = Ok out.
Proof.
  apply (update_binary_never_rejects (take 54 archive_far)).
  - vm_compute. reflexivity.
  - vm_compute. reflexivity.
Defined.

Lemma migrate_section_located_witness :
  exists m h',
    migrated migrator m /\
    uploaded (archive_section_last "old") = Some (m_updated_data m) /\
    unpack_header (take 54 (m_updated_data m)) = Ok h' /\
    py_slice (m_updated_data m) (storage_info_pos h')
      (storage_info_pos h' + storage_info_length h')
    = m_new_wrapper_data m.
Proof.
  apply (migrate_section_located migrator image_key
           (world (archive_section_last "old"))
           (archive_section_last "old") (header_section_last "old")).
  - vm_compute. reflexivity.
  - vm_compute. reflexivity.
  - vm_compute. split; discriminate.
  - vm_compute. reflexivity.
Defined.

(** The archive that the migration of [archive_section_last "old"]
    uploads. *)
Lemma migrate_again_uploads_the_same_witness :
  let u := packed (new_header (header_section_last "old"))
           ++ index ++ section "old-bkt" in
  fst (run u) = Ok tt /\ uploaded u = Some u.
Proof.
  apply (migrate_again_uploads_the_same migrator image_key
           (world (archive_section_last "old")) _
           (archive_section_last "old") (header_section_last "old")
           _ (new_header (header_section_last "old"))).
  - exact reference_round_trips.
  - vm_compute. reflexivity.
  - vm_compute. reflexivity.
  - vm_compute. split; discriminate.
  - vm_compute. reflexivity.
  - vm_compute. reflexivity.
  - vm_compute. reflexivity.
  - vm_compute. reflexivity.
  - vm_compute. reflexivity.
Defined.

End ScenarioExtras.
